(** * financial-dashboard: the time-series pipeline of
      [src/data_acquisition/retrieve_data.py]

    The file embeds [get_stock_data], [process_time_series] and
    [calculate_basic_metrics] together with the pandas operations they call,
    and proves the properties of the specification about them.

    Frames.  A [DataFrame] is an object on a heap: a variable holds a
    reference, [df.copy()], [set_index] and [ffill] allocate a new object,
    and [df[name] = values] changes the object it is applied to.  A function
    is a computation over the heap and the printed lines that returns a
    value or raises an exception.

    Numbers.  A float64 cell is [option Qc]: [Some q] is the finite value
    [q], computed exactly (no rounding, no overflow), and [None] is a cell
    that holds no finite number.  In the data that comes in, [None] is NaN,
    the missing value.  A division by zero, which IEEE answers with an
    infinity or with NaN, gives [None] too: [rolling] reads an infinity as
    NaN itself, and the statements about [Cum_Return], which does not, ask
    for the daily returns they compound to be defined.

    What is not code of the repository (the market data provider, the
    timestamp parser of [pd.to_datetime], the square root, the default
    [fill_method] of the installed pandas) is a field of [Env], over which
    every statement is quantified.  The statement about [Volatility_20d]
    asks of the square root that it is one, to within a tolerance. *)

From Stdlib Require Import ZArith QArith Qcanon Lia.
From stdpp Require Import base option list strings numbers.

Set Default Proof Using "Type".
#[local] Set Warnings "-clear-no-such-hyp".

(** ** Cells and element-wise arithmetic *)

Abbreviation cell := (option Qc).

Definition Qc_of_nat (n : nat) : Qc := Qc_of_Z (Z.of_nat n).

Definition hundred : Qc := Qc_of_Z 100.

Definition fadd (a b : cell) : cell :=
  match a, b with Some x, Some y => Some (x + y)%Qc | _, _ => None end.

Definition fsub (a b : cell) : cell :=
  match a, b with Some x, Some y => Some (x - y)%Qc | _, _ => None end.

Definition fmul (a b : cell) : cell :=
  match a, b with Some x, Some y => Some (x * y)%Qc | _, _ => None end.

Definition fdiv (a b : cell) : cell :=
  match a, b with
  | Some x, Some y => if decide (y = 0%Qc) then None else Some (x / y)%Qc
  | _, _ => None
  end.

(** A Series of floats, without its index: the index is the frame's. *)
Abbreviation series := (list cell).

(** [s1 / s2] on two Series that share their index. *)
Definition series_div (s1 s2 : series) : series := zip_with fdiv s1 s2.

(** [s - k], [s * k], [s / k] and [k + s] for a Python number [k]. *)
Definition series_sub_scalar (s : series) (k : Qc) : series :=
  (λ c, fsub c (Some k)) <$> s.
Definition series_mul_scalar (s : series) (k : Qc) : series :=
  (λ c, fmul c (Some k)) <$> s.
Definition series_div_scalar (s : series) (k : Qc) : series :=
  (λ c, fdiv c (Some k)) <$> s.
Definition scalar_add_series (k : Qc) (s : series) : series :=
  (λ c, fadd (Some k) c) <$> s.

(** ** Forward fill, shift, percentage change *)

(** [ffill_from last l]: every missing entry takes the last value seen,
    [last] being the one carried in from before [l]. *)
Fixpoint ffill_from {A : Type} (last : option A) (l : list (option A))
  : list (option A) :=
  match l with
  | [] => []
  | x :: l' =>
      let y := match x with Some _ => x | None => last end in
      y :: ffill_from y l'
  end.

(** [Series.ffill()]: a leading run of missing values has nothing to copy. *)
Definition ffill {A : Type} (l : list (option A)) : list (option A) :=
  ffill_from None l.

(** [Series.shift(1)]: row [i] receives row [i-1]; row 0 is NaN. *)
Definition shift (s : series) : series := take (length s) (None :: s).

(** The [fill_method] argument of [pct_change]. *)
Inductive fill_method := Pad | NoFill.

(** [Series.pct_change(fill_method=m)] is [data / data.shift(1) - 1], where
    [data] is the Series itself or, with [Pad], its forward fill. *)
Definition pct_change_with (m : fill_method) (s : series) : series :=
  let data := match m with Pad => ffill s | NoFill => s end in
  series_sub_scalar (series_div data (shift data)) 1%Qc.

(** ** Cumulative product *)

(** [numpy.cumprod]: [r[0] = a[0]], [r[i] = r[i-1] * a[i]]. *)
Fixpoint np_cumprod_from (acc : Qc) (l : list Qc) : list Qc :=
  match l with
  | [] => []
  | x :: l' => let acc' := (acc * x)%Qc in acc' :: np_cumprod_from acc' l'
  end.

Definition np_cumprod (l : list Qc) : list Qc :=
  match l with
  | [] => []
  | x :: l' => x :: np_cumprod_from x l'
  end.

(** [Series.cumprod()] with its default [skipna=True]: the missing entries
    are replaced by 1 for the product and put back as NaN in the result. *)
Definition cumprod (s : series) : series :=
  let vals := default 1%Qc <$> s in
  let result := np_cumprod vals in
  zip_with (λ c r, match c with Some _ => Some r | None => None end) s result.

(** ** Rolling windows *)

(** The rows of the window of size [w] that ends at row [i], inclusive. *)
Definition window {A : Type} (w i : nat) (l : list A) : list A :=
  drop (S i - w) (take (S i) l).

(** The observations of a window: its values that are numbers. *)
Fixpoint observations (l : series) : list Qc :=
  match l with
  | [] => []
  | Some x :: l' => x :: observations l'
  | None :: l' => observations l'
  end.

Definition Qc_sum (l : list Qc) : Qc := foldr Qcplus 0%Qc l.

Definition Qc_prod (l : list Qc) : Qc := foldr Qcmult 1%Qc l.

(** [Series.rolling(window=w, min_periods=minp)] followed by an aggregation
    [f] of the observations: NaN while the window holds fewer than [minp]. *)
Definition rolling_apply (w minp : nat) (f : list Qc → cell) (s : series)
  : series :=
  imap (λ i _, let obs := observations (window w i s) in
               if decide (minp ≤ length obs) then f obs else None) s.

Definition mean (obs : list Qc) : cell :=
  match obs with
  | [] => None
  | _ => Some (Qc_sum obs / Qc_of_nat (length obs))%Qc
  end.

(** Sum of the squared deviations from the mean, over [n - ddof]. *)
Definition variance (ddof : nat) (obs : list Qc) : cell :=
  if decide (length obs ≤ ddof) then None
  else
    let m := (Qc_sum obs / Qc_of_nat (length obs))%Qc in
    let ssqdm := Qc_sum ((λ x, (x - m) * (x - m))%Qc <$> obs) in
    Some (ssqdm / Qc_of_nat (length obs - ddof))%Qc.

(** ** Calendar fields of a timestamp *)

(** A timestamp is a count of nanoseconds since 1970-01-01T00:00, as in
    pandas' [datetime64[ns]]. *)
Abbreviation timestamp := Z.

Definition ns_per_day : Z := 86400000000000.

Definition days_since_epoch (t : timestamp) : Z := (t `div` ns_per_day)%Z.

(** [Timestamp.dayofweek]: Monday is 0; 1970-01-01 was a Thursday. *)
Definition dayofweek (t : timestamp) : Z := ((days_since_epoch t + 3) `mod` 7)%Z.

(** [Timestamp.month], in the proleptic Gregorian calendar: the days are
    counted from 0000-03-01, in eras of 400 years. *)
Definition month (t : timestamp) : Z :=
  let z := (days_since_epoch t + 719468)%Z in
  let doe := (z `mod` 146097)%Z in
  let yoe := ((doe - doe `div` 1460 + doe `div` 36524 - doe `div` 146096) `div` 365)%Z in
  let doy := (doe - (365 * yoe + yoe `div` 4 - yoe `div` 100))%Z in
  let mp := ((5 * doy + 2) `div` 153)%Z in
  if decide (mp < 10)%Z then (mp + 3)%Z else (mp - 9)%Z.

(** ** Data frames *)

(** A column with its dtype: floats (and integers, as floats with no missing
    value), timestamps (NaT is [None]) or strings. *)
Inductive column :=
  | Numeric (v : series)
  | Datetime (v : list (option timestamp))
  | Object (v : list (option string)).

Definition col_length (c : column) : nat :=
  match c with
  | Numeric v => length v
  | Datetime v => length v
  | Object v => length v
  end.

Record DataFrame := mkDataFrame {
  index_name : option string;
  index : column;
  columns : list (string * column)
}.

Definition nrows (df : DataFrame) : nat := col_length (index df).

Definition names (df : DataFrame) : list string := (columns df).*1.

(** [RangeIndex(n)], the index of a frame after [reset_index]. *)
Definition range_index (n : nat) : column :=
  Numeric ((λ i, Some (Qc_of_nat i)) <$> seq 0 n).

(** [df.empty]: one of the two axes has length 0. *)
Definition is_empty (df : DataFrame) : bool :=
  match nrows df, columns df with
  | O, _ => true
  | _, [] => true
  | _, _ => false
  end.

Fixpoint lookup_col (name : string) (cols : list (string * column))
  : option column :=
  match cols with
  | [] => None
  | (n, c) :: cols' => if decide (n = name) then Some c else lookup_col name cols'
  end.

(** [df[name] = c] on the columns: in place when the name exists, as a new
    last column when it does not. *)
Fixpoint assign_col (name : string) (c : column) (cols : list (string * column))
  : list (string * column) :=
  match cols with
  | [] => [(name, c)]
  | (n, c0) :: cols' =>
      if decide (n = name) then (n, c) :: cols'
      else (n, c0) :: assign_col name c cols'
  end.

Definition drop_col (name : string) (cols : list (string * column))
  : list (string * column) :=
  filter (λ p, p.1 ≠ name) cols.

Definition ffill_column (c : column) : column :=
  match c with
  | Numeric v => Numeric (ffill v)
  | Datetime v => Datetime (ffill v)
  | Object v => Object (ffill v)
  end.

(** [DataFrame.ffill()] fills every column; the index is left as it is. *)
Definition ffill_frame (df : DataFrame) : DataFrame :=
  mkDataFrame (index_name df) (index df) (prod_map id ffill_column <$> columns df).

(** A frame as pandas builds them: every column as long as the index, no
    two columns of one name. *)
Definition well_formed (df : DataFrame) : Prop :=
  Forall (λ p, col_length p.2 = nrows df) (columns df) ∧ NoDup (names df).

(** ** Objects, exceptions and effects *)

Inductive exn :=
  | KeyError (key : string)
  | TypeError
  | ValueError
  | AttributeError
  | DataError
  | ProviderError (what : string).

Inductive result (A : Type) :=
  | Ok (a : A)
  | Raise (e : exn).
Arguments Ok {A} a.
Arguments Raise {A} e.

(** Frames are objects: a variable holds a reference, and [df[name] = c]
    changes the object for every holder of the reference. *)
Abbreviation ref := nat.

Record state := mkState {
  heap : list DataFrame;
  stdout : list string
}.

Definition M (A : Type) : Type := state → result A * state.

Global Instance M_ret : MRet M := λ A a st, (Ok a, st).

Global Instance M_bind : MBind M := λ A B f m st,
  match m st with
  | (Ok a, st') => f a st'
  | (Raise e, st') => (Raise e, st')
  end.

Definition raise {A : Type} (e : exn) : M A := λ st, (Raise e, st).

(** [try: body except Exception as e: handler(e)]. *)
Definition try_except {A : Type} (body : M A) (handler : exn → M A) : M A :=
  λ st, match body st with
        | (Ok a, st') => (Ok a, st')
        | (Raise e, st') => handler e st'
        end.

Definition print (line : string) : M unit :=
  λ st, (Ok (), mkState (heap st) (stdout st ++ [line])).

Global Instance DataFrame_inhabited : Inhabited DataFrame :=
  populate (mkDataFrame None (Numeric []) []).

Definition deref (r : ref) : M DataFrame := λ st, (Ok (heap st !!! r), st).

Definition alloc (df : DataFrame) : M ref :=
  λ st, (Ok (length (heap st)), mkState (heap st ++ [df]) (stdout st)).

(** [df.empty] *)
Definition df_empty (r : ref) : M bool := df ← deref r; mret (is_empty df).

(** [df.copy()]: a new object with the same contents. *)
Definition df_copy (r : ref) : M ref := df ← deref r; alloc df.

(** [name in df.columns] *)
Definition has_column (r : ref) (name : string) : M bool :=
  df ← deref r; mret (bool_decide (name ∈ names df)).

(** [df[name]] *)
Definition getitem (r : ref) (name : string) : M column :=
  df ← deref r;
  match lookup_col name (columns df) with
  | Some c => mret c
  | None => raise (KeyError name)
  end.

(** [df[name] = c]: the object behind [r] is changed in place.  The values
    assigned in this program carry the index of the frame they go to, so
    pandas has nothing to align and no length to refuse. *)
Definition setitem (r : ref) (name : string) (c : column) : M unit :=
  λ st, (Ok (),
         mkState (alter (λ df, mkDataFrame (index_name df) (index df)
                                 (assign_col name c (columns df))) r (heap st))
                 (stdout st)).

(** [df.set_index(name)]: a new frame, the column taken out of the columns
    and made the index. *)
Definition set_index (r : ref) (name : string) : M ref :=
  df ← deref r;
  match lookup_col name (columns df) with
  | Some c => alloc (mkDataFrame (Some name) c (drop_col name (columns df)))
  | None => raise (KeyError name)
  end.

(** [df.reset_index()]: a new frame, the index put in front as a column
    under its name, and a [RangeIndex] in its place. *)
Definition reset_index (df : DataFrame) : result DataFrame :=
  let name := match index_name df with
              | Some n => n
              | None => if bool_decide ("index" ∈ names df) then "level_0" else "index"
              end in
  if bool_decide (name ∈ names df) then Raise ValueError
  else Ok (mkDataFrame None (range_index (nrows df)) ((name, index df) :: columns df)).

(** [df.ffill()]: a new frame. *)
Definition df_ffill (r : ref) : M ref := df ← deref r; alloc (ffill_frame df).

(** A Series used as a number array: arithmetic on timestamps or strings is
    a [TypeError]. *)
Definition numeric (c : column) : M series :=
  match c with
  | Numeric v => mret v
  | _ => raise TypeError
  end.

(** [df.index.dayofweek] and [df.index.month]: only a [DatetimeIndex] has
    them; NaT gives NaN. *)
Definition index_field (field : timestamp → Z) (r : ref) : M column :=
  df ← deref r;
  match index df with
  | Datetime v => mret (Numeric (fmap (M:=option) (λ t, Qc_of_Z (field t)) <$> v))
  | _ => raise AttributeError
  end.

Definition from_result {A : Type} (x : result A) : M A := λ st, (x, st).

(** ** What the program takes from outside *)

(** The market-data provider and the parts of pandas whose code decides no
    property below: they are the parameters of the development. *)
Record Env := mkEnv {
  (** [yf.Ticker(symbol).history(period=p, interval=i)]: a frame indexed by
      time, or an exception. *)
  history : string → string → string → result DataFrame;
  (** [str(e)], the text of an exception. *)
  str_of_exn : exn → string;
  (** What [pd.to_datetime] makes of a string and of a number; [None] when
      it refuses the value. *)
  parse_datetime : string → option timestamp;
  datetime_of_number : Qc → option timestamp;
  (** The square root. *)
  fsqrt : Qc → Qc;
  (** The [fill_method] that [pct_change()] takes when it is given none:
      [Pad] in pandas 1 and 2, [NoFill] since pandas 3. *)
  default_fill_method : fill_method
}.

Section Pipeline.

Context (env : Env).

(** Converts the values one by one; a missing value becomes NaT. *)
Definition convert_all {A : Type} (f : A → option timestamp)
    (v : list (option A)) : option (list (option timestamp)) :=
  mapM (λ x, match x with Some a => Some <$> f a | None => Some None end) v.

(** [pd.to_datetime(series)]: a Series of timestamps of the same length, or
    a [ValueError] at the first value that is no timestamp. *)
Definition to_datetime (c : column) : result column :=
  match c with
  | Datetime v => Ok (Datetime v)
  | Object v =>
      match convert_all (parse_datetime env) v with
      | Some ts => Ok (Datetime ts)
      | None => Raise ValueError
      end
  | Numeric v =>
      match convert_all (datetime_of_number env) v with
      | Some ts => Ok (Datetime ts)
      | None => Raise ValueError
      end
  end.

(** [series.pct_change()] *)
Definition pct_change (c : column) : M series :=
  s ← numeric c; mret (pct_change_with (default_fill_method env) s).

(** [series.rolling(window=w)], with [min_periods] left to its default, the
    window size, followed by the aggregation. *)
Definition rolling (w : nat) (f : list Qc → cell) (c : column) : M series :=
  match c with
  | Numeric v => mret (rolling_apply w w f v)
  | _ => raise DataError
  end.

(** [.std()], with its default [ddof=1]. *)
Definition std (obs : list Qc) : cell := fsqrt env <$> variance 1 obs.

Definition get_stock_data (ticker_symbol period interval : string)
  : M (option ref) :=
  try_except
    (df ← from_result (history env ticker_symbol period interval);
     df ← from_result (reset_index df);
     df ← alloc df;
     e ← df_empty df;
     if (e : bool) then
       print ("No data found for " +:+ ticker_symbol);;
       mret None
     else mret (Some df))
    (λ e,
       print ("Error retrieving data for " +:+ ticker_symbol +:+ ": "
              +:+ str_of_exn env e);;
       mret None).

Definition process_time_series (df : option ref) : M (option ref) :=
  match df with
  | None => mret None
  | Some df =>
      e ← df_empty df;
      if (e : bool) then mret None
      else
        processed_df ← df_copy df;
        has_date ← has_column processed_df "Date";
        (if (has_date : bool) then
           c ← getitem processed_df "Date";
           d ← from_result (to_datetime c);
           setitem processed_df "Date" d
         else mret ());;
        processed_df ← set_index processed_df "Date";
        processed_df ← df_ffill processed_df;
        dow ← index_field dayofweek processed_df;
        setitem processed_df "DayOfWeek" dow;;
        m ← index_field month processed_df;
        setitem processed_df "Month" m;;
        mret (Some processed_df)
  end.

Definition calculate_basic_metrics (df : option ref) : M (option ref) :=
  match df with
  | None => mret None
  | Some df =>
      e ← df_empty df;
      if (e : bool) then mret None
      else
        metrics_df ← df_copy df;
        close ← getitem metrics_df "Close";
        r ← pct_change close;
        setitem metrics_df "Daily_Return" (Numeric (series_mul_scalar r hundred));;
        dr ← getitem metrics_df "Daily_Return";
        dr ← numeric dr;
        setitem metrics_df "Cum_Return"
          (Numeric (series_sub_scalar
                      (cumprod (scalar_add_series 1%Qc (series_div_scalar dr hundred)))
                      1%Qc));;
        cr ← getitem metrics_df "Cum_Return";
        cr ← numeric cr;
        setitem metrics_df "Cum_Return" (Numeric (series_mul_scalar cr hundred));;
        dr ← getitem metrics_df "Daily_Return";
        v ← rolling 20 std dr;
        setitem metrics_df "Volatility_20d" (Numeric v);;
        volume ← getitem metrics_df "Volume";
        r ← pct_change volume;
        setitem metrics_df "Volume_Change" (Numeric (series_mul_scalar r hundred));;
        close ← getitem metrics_df "Close";
        ma ← rolling 5 mean close;
        setitem metrics_df "5d_MA" (Numeric ma);;
        close ← getitem metrics_df "Close";
        ma ← rolling 20 mean close;
        setitem metrics_df "20d_MA" (Numeric ma);;
        close ← getitem metrics_df "Close";
        ma ← rolling 50 mean close;
        setitem metrics_df "50d_MA" (Numeric ma);;
        mret (Some metrics_df)
  end.

End Pipeline.

(** The square root of [n/d] rounded down to a multiple of [1/d]; 0 for a
    negative number. *)
Definition sqrt_down (x : Qc) : Qc :=
  (Qc_of_Z (Z.sqrt (Qnum x * Zpos (Qden x))) / Qc_of_Z (Zpos (Qden x)))%Qc.

(** An environment to run the pipeline on frames built by hand: a provider
    that knows no symbol, a [to_datetime] that accepts timestamps only, the
    rounded square root, and the fill method of pandas 1 and 2. *)
Definition offline : Env :=
  mkEnv (λ _ _ _, Raise (ProviderError "offline")) (λ _, "error")
        (λ _, None) (λ _, None) sqrt_down Pad.

(** ** Vocabulary of the statements *)

(** A series is forward filled when filling it again changes nothing. *)
Definition forward_filled {A : Type} (l : list (option A)) : Prop := ffill l = l.

(** The length of the leading run of missing values. *)
Fixpoint leading_missing {A : Type} (l : list (option A)) : nat :=
  match l with
  | None :: l' => S (leading_missing l')
  | _ => 0
  end.

(** No value of the series is the number zero. *)
Definition nonzero_values (s : series) : Prop :=
  Forall (λ c, c ≠ Some 0%Qc) s.

(** [f] is a square root to within [eps]: what it answers on a number [x]
    that is not negative lies, with the root of [x], between two numbers
    that are at most [eps] apart. *)
Definition sqrt_within (eps : Qc) (f : Qc → Qc) : Prop :=
  ∀ x, (0 ≤ x)%Qc →
    ∃ lo hi, (0 ≤ lo)%Qc ∧ (lo ≤ f x)%Qc ∧ (f x ≤ hi)%Qc ∧ (hi - lo ≤ eps)%Qc
             ∧ (lo * lo ≤ x)%Qc ∧ (x ≤ hi * hi)%Qc.

(** Timestamps that are all present and strictly increasing. *)
Fixpoint strictly_increasing (ts : list (option timestamp)) : Prop :=
  match ts with
  | Some a :: ((Some b :: _) as ts') => (a < b)%Z ∧ strictly_increasing ts'
  | [Some _] => True
  | [] => True
  | _ => False
  end.

Definition index_increasing (df : DataFrame) : Prop :=
  match index df with
  | Datetime ts => strictly_increasing ts
  | _ => False
  end.

(** The column [name] of the frame is the number series [s]. *)
Definition column_is (df : DataFrame) (name : string) (s : series) : Prop :=
  lookup_col name (columns df) = Some (Numeric s).

(** The calendar column that [index_field] derives from the timestamps. *)
Definition calendar (field : timestamp → Z) (ts : list (option timestamp))
  : column :=
  Numeric (fmap (M:=option) (λ t, Qc_of_Z (field t)) <$> ts).

(** The frame [process_time_series] returns for the frame [df] whose dates
    convert to [ts]. *)
Definition normalized (ts : list (option timestamp)) (df : DataFrame)
  : DataFrame :=
  mkDataFrame (Some "Date") (Datetime ts)
    (assign_col "Month" (calendar month ts)
       (assign_col "DayOfWeek" (calendar dayofweek ts)
          (prod_map id ffill_column <$> drop_col "Date" (columns df)))).

(** One plus a daily return taken as a fraction. *)
Definition growth (x : Qc) : Qc := (1 + x / hundred)%Qc.

(** The series [calculate_basic_metrics] derives from [Close] and [Volume]. *)
Definition daily_return (env : Env) (close : series) : series :=
  series_mul_scalar (pct_change_with (default_fill_method env) close) hundred.

Definition cum_return (env : Env) (close : series) : series :=
  series_mul_scalar
    (series_sub_scalar
       (cumprod (scalar_add_series 1%Qc
                   (series_div_scalar (daily_return env close) hundred)))
       1%Qc)
    hundred.

Definition volatility_20d (env : Env) (close : series) : series :=
  rolling_apply 20 20 (std env) (daily_return env close).

Definition moving_average (w : nat) (close : series) : series :=
  rolling_apply w w mean close.

(** The frame [calculate_basic_metrics] returns for the frame [df] with the
    number columns [close] and [volume]. *)
Definition augmented (env : Env) (df : DataFrame) (close volume : series)
  : DataFrame :=
  mkDataFrame (index_name df) (index df)
    (assign_col "50d_MA" (Numeric (moving_average 50 close))
    (assign_col "20d_MA" (Numeric (moving_average 20 close))
    (assign_col "5d_MA" (Numeric (moving_average 5 close))
    (assign_col "Volume_Change" (Numeric (daily_return env volume))
    (assign_col "Volatility_20d" (Numeric (volatility_20d env close))
    (assign_col "Cum_Return" (Numeric (cum_return env close))
    (assign_col "Daily_Return" (Numeric (daily_return env close))
       (columns df)))))))).

(** [m] leaves the first [n] objects of the heap as they are, and its
    result satisfies [Q]: the objects a caller holds when the run starts
    are among those [n]. *)
Definition keeps {A : Type} (n : nat) (m : M A) (Q : A → Prop) : Prop :=
  ∀ st, n ≤ length (heap st) →
    take n (heap (m st).2) = take n (heap st)
    ∧ n ≤ length (heap (m st).2)
    ∧ ∀ a, (m st).1 = Ok a → Q a.

(** The argument is [None] or an empty frame. *)
Definition absent_or_empty (st : state) (df : option ref) : bool :=
  match df with
  | None => true
  | Some r => is_empty (heap st !!! r)
  end.

(** The specification's boundary of a windowed column, as it words it: the
    column is undefined exactly in the rows before [bound]. *)
Definition spec_undefined_below (bound : nat) (s : series) : Prop :=
  ∀ i, i < length s → s !! i = Some None ↔ i < bound.

(** The specification's description of a normalized series, as it words it:
    the columns are the original ones and the two calendar fields, and the
    index increases strictly. *)
Definition spec_normalized_shape (raw out : DataFrame) : Prop :=
  (∀ n, n ∈ names out ↔ n ∈ names raw ∨ n = "DayOfWeek" ∨ n = "Month")
  ∧ index_increasing out.

(** The numbers of a column of a returned frame, as fractions in lowest
    terms; the empty list when there is no such number column. *)
Definition fractions (name : string) (out : option DataFrame) : list (option Q) :=
  match out ≫= (λ df, lookup_col name (columns df)) with
  | Some (Numeric s) => fmap (M:=option) this <$> s
  | _ => []
  end.

(** [m] prints nothing, whatever it returns or raises. *)
Definition prints_nothing {A : Type} (m : M A) : Prop :=
  ∀ st, stdout (m st).2 = stdout st.

(** The columns [calculate_basic_metrics] assigns, in the order of the
    assignments, with the series each one holds. *)
Definition derived_columns (env : Env) (close volume : series)
  : list (string * column) :=
  [("Daily_Return", Numeric (daily_return env close));
   ("Cum_Return", Numeric (cum_return env close));
   ("Volatility_20d", Numeric (volatility_20d env close));
   ("Volume_Change", Numeric (daily_return env volume));
   ("5d_MA", Numeric (moving_average 5 close));
   ("20d_MA", Numeric (moving_average 20 close));
   ("50d_MA", Numeric (moving_average 50 close))].

Definition derived_names : list string :=
  ["Daily_Return"; "Cum_Return"; "Volatility_20d"; "Volume_Change";
   "5d_MA"; "20d_MA"; "50d_MA"].

(** ** Frames to run the pipeline on *)

Definition day (n : Z) : option timestamp := Some (n * ns_per_day)%Z.

Definition num (n : Z) : cell := Some (Qc_of_Z n).

(** [n] consecutive days from the day [d], and prices rising by 1 from [p]. *)
Definition days_from (d : Z) (n : nat) : list (option timestamp) :=
  (λ i, day (d + Z.of_nat i)) <$> seq 0 n.

Definition prices_from (p : Z) (n : nat) : series :=
  (λ i, num (p + Z.of_nat i)) <$> seq 0 n.

Definition raw_frame (dates : list (option timestamp)) (close volume : series)
  : DataFrame :=
  mkDataFrame None (range_index (length dates))
    [("Date", Datetime dates); ("Close", Numeric close); ("Volume", Numeric volume)].

(** Three days from Monday 2024-01-01, the second close missing. *)
Definition raw3 : DataFrame :=
  raw_frame (days_from 19723 3) [num 100; None; num 102] (prices_from 10 3).

(** Twenty days with every close present. *)
Definition raw20 : DataFrame :=
  raw_frame (days_from 19723 20) (prices_from 100 20) (prices_from 1000 20).

(** Twenty days, the first close missing. *)
Definition raw20_late : DataFrame :=
  raw_frame (days_from 19723 20) (None :: prices_from 101 19) (prices_from 1000 20).

(** A frame with prices and no [Date] column, and one with dates and no
    [Close] column. *)
Definition no_date : DataFrame :=
  mkDataFrame None (range_index 2)
    [("Datetime", Datetime (days_from 19723 2)); ("Close", Numeric (prices_from 100 2))].

Definition no_close : DataFrame :=
  mkDataFrame (Some "Date") (Datetime (days_from 19723 2))
    [("Volume", Numeric (prices_from 1000 2))].

(** The prices of [prices_from] as numbers, and sixty days with every
    close and volume present. *)
Definition price_values (p : Z) (n : nat) : list Qc :=
  (λ i, Qc_of_Z (p + Z.of_nat i)) <$> seq 0 n.

Definition raw60 : DataFrame :=
  raw_frame (days_from 19723 60) (prices_from 100 60) (prices_from 1000 60).

(** The first five of the twenty days. *)
Definition raw5 : DataFrame :=
  raw_frame (days_from 19723 5) (prices_from 100 5) (prices_from 1000 5).

(** What a provider answers: three days as the index, under the given
    name, with closes and volumes. *)
Definition provider_frame (name : string) : DataFrame :=
  mkDataFrame (Some name) (Datetime (days_from 19723 3))
    [("Close", Numeric [num 100; None; num 102]);
     ("Volume", Numeric (prices_from 10 3))].

(** A provider of daily data, indexed by [Date], and one of intraday data,
    indexed by [Datetime]. *)
Definition daily : Env :=
  mkEnv (λ _ _ _, Ok (provider_frame "Date"))
        (λ _, "error") (λ _, None) (λ _, None) sqrt_down Pad.

Definition intraday : Env :=
  mkEnv (λ _ _ _, Ok (provider_frame "Datetime"))
        (λ _, "error") (λ _, None) (λ _, None) sqrt_down Pad.

(** Two days given latest first. *)
Definition raw_unsorted : DataFrame :=
  raw_frame [day 19724; day 19723] (prices_from 100 2) (prices_from 1000 2).

(** A frame with columns and no row. *)
Definition no_rows : DataFrame :=
  mkDataFrame None (range_index 0) [("Date", Datetime []); ("Close", Numeric [])].

(** A provider that answers every request with a frame of no row. *)
Definition no_data : Env :=
  mkEnv (λ _ _ _, Ok (mkDataFrame (Some "Date") (Datetime []) [("Close", Numeric [])]))
        (λ _, "error") (λ _, None) (λ _, None) sqrt_down Pad.

(** The state in which [df] is the only object and nothing was printed. *)
Definition only (df : DataFrame) : state := mkState [df] [].

(** The state after [process_time_series] ran on the only object; the frame
    it returned is the object 3. *)
Definition after_normalize (env : Env) (df : DataFrame) : state :=
  (process_time_series env (Some 0) (only df)).2.

(** [Close] of the three frames above once forward filled. *)
Definition filled3 : series := [num 100; num 100; num 102].

(** Runs [normalize] and then [augment] on the frame at reference 0. *)
Definition pipeline (env : Env) (st : state) : result (option ref) * state :=
  match process_time_series env (Some 0) st with
  | (Ok r, st') => calculate_basic_metrics env r st'
  | (Raise e, st') => (Raise e, st')
  end.

(** The frame a run returned, when it returned one. *)
Definition returned (run : result (option ref) * state) : option DataFrame :=
  match run with
  | (Ok (Some r), st) => heap st !! r
  | _ => None
  end.

(** * Properties *)

(** Decides a closed statement by evaluation. *)
Ltac by_evaluation := apply (bool_decide_unpack _); vm_compute; exact I.

(** ** Forward fill *)

Section ForwardFill.

Context {A : Type}.
Implicit Types (l : list (option A)) (last : option A).

Lemma length_ffill_from last l : length (ffill_from last l) = length l.
Proof. revert last; induction l as [|x l IH]; intros last; simpl; [done|]. by rewrite IH. Qed.

Lemma ffill_from_idemp last l :
  ffill_from last (ffill_from last l) = ffill_from last l.
Proof.
  revert last; induction l as [|x l IH]; intros last; [done|].
  destruct x as [v|]; simpl.
  - by rewrite IH.
  - destruct last as [v|]; simpl; by rewrite IH.
Qed.

Lemma forward_filled_ffill l : forward_filled (ffill l).
Proof. apply ffill_from_idemp. Qed.

(** After a value, a filled series has no missing entry. *)
Lemma ffill_from_Some_fixed v l i :
  ffill_from (Some v) l = l → l !! i ≠ Some None.
Proof.
  revert v i; induction l as [|x l IH]; intros v i; [by destruct i|].
  destruct x as [w|]; simpl; [|discriminate].
  intros [= Hl]. destruct i as [|i]; simpl; [discriminate|]. by eapply IH.
Qed.

(** The missing entries of a filled series are its leading run. *)
Lemma forward_filled_missing l i :
  forward_filled l → i < length l →
  l !! i = Some None ↔ i < leading_missing l.
Proof.
  unfold forward_filled, ffill.
  revert i; induction l as [|x l IH]; intros i Hl Hi; simpl in *; [lia|].
  destruct x as [v|]; simplify_eq/=.
  - split; [|lia]. destruct i as [|i]; simpl; [discriminate|].
    intros Hn. exfalso. by eapply ffill_from_Some_fixed.
  - destruct i as [|i]; simpl; [split; [lia|done]|].
    rewrite IH; [lia|done|lia].
Qed.

Lemma leading_missing_le l : leading_missing l ≤ length l.
Proof. induction l as [|[v|] l IH]; simpl; lia. Qed.

End ForwardFill.

Lemma ffill_column_idemp c : ffill_column (ffill_column c) = ffill_column c.
Proof. destruct c; simpl; f_equal; apply ffill_from_idemp. Qed.

Lemma col_length_ffill c : col_length (ffill_column c) = col_length c.
Proof. destruct c; simpl; apply length_ffill_from. Qed.

(** ** Shift and percentage change *)

Lemma length_shift s : length (shift s) = length s.
Proof. unfold shift. rewrite length_take. simpl. lia. Qed.

Lemma shift_lookup_0 s : 0 < length s → shift s !! 0 = Some None.
Proof. intros Hs. unfold shift. by rewrite lookup_take_lt. Qed.

Lemma shift_lookup_S s i : S i < length s → shift s !! S i = s !! i.
Proof. intros Hs. unfold shift. by rewrite lookup_take_lt. Qed.

Lemma length_pct_change_with m s : length (pct_change_with m s) = length s.
Proof.
  unfold pct_change_with, series_sub_scalar, series_div.
  rewrite length_fmap, length_zip_with, length_shift.
  destruct m; [unfold ffill; rewrite length_ffill_from|]; lia.
Qed.

(** With a forward-filled series the fill method makes no difference. *)
Lemma pct_change_with_filled m s :
  forward_filled s → pct_change_with m s = pct_change_with NoFill s.
Proof. intros Hs. destruct m; [|done]. unfold pct_change_with. by rewrite Hs. Qed.

Lemma pct_change_lookup_0 s :
  0 < length s → pct_change_with NoFill s !! 0 = Some None.
Proof.
  intros Hs. unfold pct_change_with, series_sub_scalar, series_div.
  rewrite list_lookup_fmap, lookup_zip_with, shift_lookup_0 by done.
  destruct s as [|c s]; simpl in *; [lia|]. by destruct c.
Qed.

Lemma pct_change_lookup_S s i ci cp :
  s !! S i = Some ci → s !! i = Some cp →
  pct_change_with NoFill s !! S i = Some (fsub (fdiv ci cp) (Some 1%Qc)).
Proof.
  intros Hi Hp. unfold pct_change_with, series_sub_scalar, series_div.
  rewrite list_lookup_fmap, lookup_zip_with, shift_lookup_S, Hi, Hp; [done|].
  by apply lookup_lt_Some in Hi.
Qed.

Lemma length_daily_return env close :
  length (daily_return env close) = length close.
Proof.
  unfold daily_return, series_mul_scalar.
  by rewrite length_fmap, length_pct_change_with.
Qed.

Lemma daily_return_lookup_0 env close :
  forward_filled close → 0 < length close →
  daily_return env close !! 0 = Some None.
Proof.
  intros Hf Hl. unfold daily_return, series_mul_scalar.
  by rewrite pct_change_with_filled, list_lookup_fmap, pct_change_lookup_0.
Qed.

Lemma daily_return_lookup_S env close i ci cp :
  forward_filled close → close !! S i = Some ci → close !! i = Some cp →
  daily_return env close !! S i
  = Some (fmul (fsub (fdiv ci cp) (Some 1%Qc)) (Some hundred)).
Proof.
  intros Hf Hi Hp. unfold daily_return, series_mul_scalar.
  rewrite pct_change_with_filled, list_lookup_fmap by done.
  by erewrite pct_change_lookup_S.
Qed.

(** On two numbers, the earlier one not zero, the daily return is their
    quotient less one, in percent. *)
Lemma daily_return_present env close i ci cp :
  forward_filled close →
  close !! S i = Some (Some ci) → close !! i = Some (Some cp) → cp ≠ 0%Qc →
  daily_return env close !! S i
  = Some (Some ((ci / cp - 1) * Qc_of_Z 100)%Qc).
Proof.
  intros Hf Hi Hp Hp0. rewrite (daily_return_lookup_S env close i _ _ Hf Hi Hp).
  simpl. by rewrite decide_False.
Qed.

(** With either of the two missing there is no daily return. *)
Lemma daily_return_absent env close i :
  forward_filled close → S i < length close →
  close !! S i = Some None ∨ close !! i = Some None →
  daily_return env close !! S i = Some None.
Proof.
  intros Hf Hl Hn.
  destruct (lookup_lt_is_Some_2 close (S i) Hl) as [ci Hi].
  destruct (lookup_lt_is_Some_2 close i ltac:(lia)) as [cp Hp].
  rewrite (daily_return_lookup_S env close i ci cp Hf Hi Hp).
  destruct Hn as [Hn|Hn]; simplify_eq; [done|by destruct ci].
Qed.

(** There is none up to the first row that has a value. *)
Lemma daily_return_leading env close k :
  forward_filled close → k < length close → k ≤ leading_missing close →
  daily_return env close !! k = Some None.
Proof.
  intros Hf Hk Hm. destruct k as [|k]; [apply daily_return_lookup_0; [done|lia]|].
  apply daily_return_absent; [done..|]. right.
  apply forward_filled_missing; [done|lia|lia].
Qed.

(** ** Cumulative product *)

Lemma hundred_nonzero : hundred ≠ 0%Qc.
Proof. intros H. by apply (f_equal this) in H. Qed.

Lemma length_np_cumprod_from acc l : length (np_cumprod_from acc l) = length l.
Proof. revert acc; induction l as [|x l IH]; intros acc; simpl; [done|]. by rewrite IH. Qed.

Lemma length_np_cumprod l : length (np_cumprod l) = length l.
Proof. destruct l; simpl; [done|]. by rewrite length_np_cumprod_from. Qed.

(** The running product is the product of the rows read so far. *)
Lemma np_cumprod_from_lookup acc l i :
  i < length l →
  np_cumprod_from acc l !! i = Some (acc * Qc_prod (take (S i) l))%Qc.
Proof.
  revert acc i; induction l as [|x l IH]; intros acc i Hi; simpl in *; [lia|].
  destruct i as [|i]; simpl.
  - f_equal. unfold Qc_prod. destruct l; simpl; ring.
  - rewrite IH by lia. f_equal. unfold Qc_prod. simpl. ring.
Qed.

Lemma np_cumprod_lookup l i :
  i < length l → np_cumprod l !! i = Some (Qc_prod (take (S i) l)).
Proof.
  destruct l as [|x l]; simpl; [lia|]. intros Hi.
  destruct i as [|i]; simpl.
  - f_equal. unfold Qc_prod. destruct l; simpl; ring.
  - rewrite np_cumprod_from_lookup by lia. done.
Qed.

Lemma length_cumprod s : length (cumprod s) = length s.
Proof.
  unfold cumprod. rewrite length_zip_with, length_np_cumprod, length_fmap. lia.
Qed.

Lemma cumprod_lookup s i c :
  s !! i = Some c →
  cumprod s !! i
  = Some (match c with
          | Some _ => Some (Qc_prod (take (S i) (default 1%Qc <$> s)))
          | None => None
          end).
Proof.
  intros Hc. unfold cumprod.
  rewrite lookup_zip_with, Hc. simpl.
  rewrite np_cumprod_lookup; [done|].
  rewrite length_fmap. by apply lookup_lt_Some in Hc.
Qed.

Lemma growth_cell (c : cell) :
  fadd (Some 1%Qc) (fdiv c (Some hundred)) = growth <$> c.
Proof.
  destruct c as [x|]; simpl; [|done].
  destruct (decide (hundred = 0%Qc)) as [H|_]; [by destruct hundred_nonzero|done].
Qed.

Lemma length_cum_return env close : length (cum_return env close) = length close.
Proof.
  unfold cum_return, series_mul_scalar, series_sub_scalar, scalar_add_series,
    series_div_scalar.
  by rewrite !length_fmap, length_cumprod, !length_fmap, length_daily_return.
Qed.

(** The cell of [Cum_Return] at a row, from the cell of [Daily_Return]. *)
Lemma cum_return_lookup env close i c :
  daily_return env close !! i = Some c →
  cum_return env close !! i
  = Some ((λ _, (Qc_prod (take (S i)
                   ((λ c, default 1%Qc (growth <$> c)) <$> daily_return env close))
                 - 1) * hundred)%Qc <$> c).
Proof.
  intros Hc.
  assert (default 1%Qc <$> scalar_add_series 1%Qc
            (series_div_scalar (daily_return env close) hundred)
          = (λ c, default 1%Qc (growth <$> c)) <$> daily_return env close) as Hvals.
  { unfold scalar_add_series, series_div_scalar. rewrite <-!list_fmap_compose.
    apply list_fmap_ext. intros j y _. cbn [compose]. by rewrite growth_cell. }
  unfold cum_return, series_mul_scalar, series_sub_scalar.
  rewrite !list_lookup_fmap.
  erewrite cumprod_lookup; last first.
  { unfold scalar_add_series, series_div_scalar.
    rewrite !list_lookup_fmap, Hc. cbn [fmap option_fmap option_map].
    by rewrite growth_cell. }
  rewrite Hvals. by destruct c.
Qed.

Lemma Qc_prod_cons x l : Qc_prod (x :: l) = (x * Qc_prod l)%Qc.
Proof. done. Qed.

Lemma Qc_prod_app l1 l2 : Qc_prod (l1 ++ l2) = (Qc_prod l1 * Qc_prod l2)%Qc.
Proof.
  unfold Qc_prod. induction l1 as [|y l1 IH]; simpl; [ring|].
  rewrite IH. ring.
Qed.

Lemma Qc_prod_ones (l : list Qc) :
  (∀ k x, l !! k = Some x → x = 1%Qc) → Qc_prod l = 1%Qc.
Proof.
  induction l as [|y l IH]; intros Hl; [done|].
  rewrite Qc_prod_cons, (Hl 0 y eq_refl), IH; [ring|].
  intros k x Hk. by apply (Hl (S k)).
Qed.

(** With [m] leading rows that have no price and the daily returns of the
    rows [m+1..i] defined, [Cum_Return] at row [i] compounds exactly
    those: the rows up to [m] count as the factor 1. *)
Lemma cum_return_compound_from env close i xs :
  forward_filled close →
  leading_missing close < i → i < length close →
  take (i - leading_missing close)
       (drop (S (leading_missing close)) (daily_return env close))
  = Some <$> xs →
  cum_return env close !! i
  = Some (Some ((Qc_prod ((λ x, 1 + x / Qc_of_Z 100)%Qc <$> xs) - 1)
                * Qc_of_Z 100)%Qc).
Proof.
  intros Hf Hm Hn Hxs. set (m := leading_missing close) in *.
  pose proof (length_daily_return env close) as Hlen.
  assert (length xs = i - m) as Hl.
  { rewrite <-(length_fmap Some xs), <-Hxs, length_take, length_drop. lia. }
  assert (∃ x, daily_return env close !! i = Some (Some x)) as [x Hx].
  { destruct (lookup_lt_is_Some_2 xs (i - m - 1)) as [x Hx]; [lia|].
    exists x. replace i with (S m + (i - m - 1)) at 1 by lia.
    rewrite <-lookup_drop, <-(lookup_take_lt _ (i - m)) by lia.
    by rewrite Hxs, list_lookup_fmap, Hx. }
  rewrite (cum_return_lookup _ _ _ _ Hx). cbn [fmap option_fmap option_map].
  change (Qc_of_Z 100) with hundred. do 4 f_equal.
  replace (S i) with (S m + (i - m)) by lia.
  rewrite <-take_take_drop, Qc_prod_app, Qc_prod_ones, Qcmult_1_l.
  - by rewrite <-fmap_drop, <-fmap_take, Hxs, <-list_fmap_compose.
  - intros k y Hk. pose proof (lookup_lt_Some _ _ _ Hk) as Hlt.
    rewrite length_take, length_fmap in Hlt.
    rewrite lookup_take_lt, list_lookup_fmap, daily_return_leading in Hk
      by (done || lia).
    by simplify_eq/=.
Qed.

(** ** Rolling windows *)

Lemma length_window {A : Type} w i (l : list A) :
  i < length l → length (window w i l) = w `min` S i.
Proof. intros Hi. unfold window. rewrite length_drop, length_take. lia. Qed.

Lemma window_lookup {A : Type} w i (l : list A) j :
  j < w `min` S i → window w i l !! j = l !! (S i - w + j).
Proof. intros Hj. unfold window. rewrite lookup_drop, lookup_take_lt; [done|lia]. Qed.

Lemma observations_Some obs : observations (Some <$> obs) = obs.
Proof. induction obs as [|x obs IH]; [done|]. simpl. by f_equal. Qed.

Lemma length_observations_le (l : series) : length (observations l) ≤ length l.
Proof. induction l as [|[x|] l IH]; simpl; lia. Qed.

Lemma length_observations_lt (l : series) j :
  l !! j = Some None → length (observations l) < length l.
Proof.
  revert j; induction l as [|c l IH]; intros j Hj; [done|].
  destruct j as [|j]; simpl in Hj.
  - simplify_eq. pose proof (length_observations_le l). simpl. lia.
  - apply IH in Hj. destruct c; simpl; lia.
Qed.

Lemma all_present (l : series) :
  (∀ j, l !! j ≠ Some None) → ∃ obs, l = Some <$> obs.
Proof.
  induction l as [|c l IH]; intros Hl; [by exists []|].
  destruct IH as [obs ->]; [intros j; apply (Hl (S j))|].
  destruct c as [x|]; [by exists (x :: obs)|]. by destruct (Hl 0).
Qed.

Lemma rolling_apply_lookup w minp f (s : series) i :
  i < length s →
  rolling_apply w minp f s !! i
  = Some (if decide (minp ≤ length (observations (window w i s)))
          then f (observations (window w i s)) else None).
Proof.
  intros Hi. unfold rolling_apply. rewrite list_lookup_imap.
  destruct (lookup_lt_is_Some_2 s i Hi) as [c ->]. done.
Qed.

Lemma length_rolling_apply w minp f (s : series) :
  length (rolling_apply w minp f s) = length s.
Proof. apply length_imap. Qed.

Section Rolling.

Context (w k : nat) (f : list Qc → cell) (s : series).
Hypothesis w_pos : 0 < w.
Hypothesis missing_prefix : ∀ j, j < length s → s !! j = Some None ↔ j < k.

(** From row [k + w - 1] on, the window is full of numbers. *)
Lemma rolling_window_full i :
  i < length s → k + w - 1 ≤ i →
  ∃ obs, window w i s = Some <$> obs ∧ length obs = w.
Proof using w_pos missing_prefix.
  intros Hi Hk. destruct (all_present (window w i s)) as [obs Hobs].
  - intros j Hj.
    assert (j < w `min` S i) as Hjw.
    { apply lookup_lt_Some in Hj. by rewrite length_window in Hj. }
    rewrite window_lookup in Hj by done.
    apply missing_prefix in Hj; lia.
  - exists obs. split; [done|].
    rewrite <-(length_fmap Some obs), <-Hobs, length_window by done. lia.
Qed.

Lemma rolling_defined i :
  i < length s → k + w - 1 ≤ i →
  ∃ obs, window w i s = Some <$> obs ∧ length obs = w
         ∧ rolling_apply w w f s !! i = Some (f obs).
Proof using w_pos missing_prefix.
  intros Hi Hk. destruct (rolling_window_full i Hi Hk) as (obs & Hobs & Hl).
  exists obs. split_and!; [done..|].
  rewrite rolling_apply_lookup, Hobs, observations_Some by done.
  by rewrite decide_True by lia.
Qed.

(** Before it, the window is short or holds a missing value. *)
Lemma rolling_undefined i :
  i < length s → i < k + w - 1 → rolling_apply w w f s !! i = Some None.
Proof using w_pos missing_prefix.
  intros Hi Hk. rewrite rolling_apply_lookup by done.
  rewrite decide_False; [done|].
  pose proof (length_observations_le (window w i s)) as Hle.
  rewrite length_window in Hle by done.
  destruct (decide (S i < w)) as [|Hw]; [lia|].
  assert (window w i s !! 0 = Some None) as H0.
  { rewrite window_lookup by lia. apply missing_prefix; lia. }
  apply length_observations_lt in H0. rewrite length_window in H0 by done. lia.
Qed.

End Rolling.

(** The missing daily returns of a filled price series with no zero price
    are one more than its missing prices. *)
Lemma daily_return_missing env close j :
  forward_filled close → nonzero_values close → j < length close →
  daily_return env close !! j = Some None ↔ j < S (leading_missing close).
Proof.
  intros Hf Hnz Hj. destruct j as [|j].
  { rewrite daily_return_lookup_0 by (done || lia). split; [lia|done]. }
  destruct (lookup_lt_is_Some_2 close (S j) Hj) as [ci Hi].
  destruct (lookup_lt_is_Some_2 close j ltac:(lia)) as [cp Hp].
  rewrite (daily_return_lookup_S env close j ci cp) by done.
  pose proof (forward_filled_missing close (S j) Hf Hj) as Hmi.
  pose proof (forward_filled_missing close j Hf ltac:(lia)) as Hmp.
  rewrite Hi in Hmi. rewrite Hp in Hmp.
  destruct cp as [p|]; last first.
  { pose proof (proj1 Hmp eq_refl). destruct ci; simpl; (split; [lia|done]). }
  assert (p ≠ 0%Qc) as Hp0
    by (intros ->; by apply (list.Forall_lookup_1 _ _ _ _ Hnz Hp)).
  destruct ci as [c|]; simpl.
  - rewrite decide_False by done. simpl. split; [done|].
    intros Hlt. assert (j < leading_missing close) as Hlt' by lia.
    by apply Hmp in Hlt'.
  - pose proof (proj1 Hmi eq_refl). split; [lia|done].
Qed.

Lemma std_is_Some env obs : 1 < length obs → is_Some (std env obs).
Proof. intros Hl. unfold std, variance. rewrite decide_False by lia. by eexists. Qed.

Lemma mean_is_Some obs : 0 < length obs → is_Some (mean obs).
Proof. destruct obs; simpl; [lia|by eexists]. Qed.

(** ** Columns of a frame *)

Lemma lookup_assign_eq name c cols : lookup_col name (assign_col name c cols) = Some c.
Proof.
  induction cols as [|[n c0] cols IH]; simpl.
  - by rewrite decide_True.
  - destruct (decide (n = name)) as [->|Hn]; simpl.
    + by rewrite decide_True.
    + by rewrite decide_False.
Qed.

Lemma lookup_assign_ne name name' c cols :
  name ≠ name' → lookup_col name (assign_col name' c cols) = lookup_col name cols.
Proof.
  intros Hne. induction cols as [|[n c0] cols IH]; simpl.
  - by rewrite decide_False.
  - destruct (decide (n = name')) as [->|Hn]; simpl.
    + by rewrite !decide_False.
    + by rewrite IH.
Qed.

Lemma assign_assign name c c' cols :
  assign_col name c' (assign_col name c cols) = assign_col name c' cols.
Proof.
  induction cols as [|[n c0] cols IH]; simpl.
  - by rewrite decide_True.
  - destruct (decide (n = name)) as [->|Hn]; simpl.
    + by rewrite decide_True.
    + by rewrite decide_False, IH.
Qed.

Lemma drop_assign name c cols :
  drop_col name (assign_col name c cols) = drop_col name cols.
Proof.
  unfold drop_col. induction cols as [|[n c0] cols IH]; simpl.
  - by rewrite filter_cons_False, filter_nil by (simpl; naive_solver).
  - destruct (decide (n = name)) as [->|Hn].
    + by rewrite !filter_cons_False by (simpl; naive_solver).
    + by rewrite !filter_cons_True, IH by done.
Qed.

Lemma lookup_col_elem_of name cols :
  is_Some (lookup_col name cols) ↔ name ∈ cols.*1.
Proof.
  induction cols as [|[n c0] cols IH]; simpl.
  - split; [by intros [? ?]|by intros ?%elem_of_nil].
  - destruct (decide (n = name)) as [->|Hn].
    + split; [intros _; left|by eexists].
    + rewrite IH, elem_of_cons. naive_solver.
Qed.

Lemma names_assign name c cols n :
  n ∈ (assign_col name c cols).*1 ↔ n ∈ cols.*1 ∨ n = name.
Proof.
  induction cols as [|[n0 c0] cols IH]; simpl.
  - rewrite list_elem_of_singleton, elem_of_nil. naive_solver.
  - destruct (decide (n0 = name)) as [->|Hn]; simpl.
    + rewrite !elem_of_cons. naive_solver.
    + rewrite !elem_of_cons, IH. naive_solver.
Qed.

Lemma names_drop name cols n :
  n ∈ (drop_col name cols).*1 ↔ n ∈ cols.*1 ∧ n ≠ name.
Proof.
  unfold drop_col. rewrite !list_elem_of_fmap. split.
  - intros ([n' c] & -> & [Hne Hin]%list_elem_of_filter). simpl in *.
    split; [|done]. by exists (n', c).
  - intros [([n' c] & -> & Hin) Hne]. exists (n', c). split; [done|].
    by apply list_elem_of_filter.
Qed.

Lemma names_ffill (cols : list (string * column)) :
  (prod_map id ffill_column <$> cols).*1 = cols.*1.
Proof. induction cols as [|[n c] cols IH]; simpl; [done|]. by f_equal. Qed.

(** ** Running the effects *)

Lemma bind_ok {A B : Type} (m : M A) (f : A → M B) st a st' :
  m st = (Ok a, st') → (m ≫= f) st = f a st'.
Proof. intros Hm. unfold mbind, M_bind. by rewrite Hm. Qed.

Lemma bind_raise {A B : Type} (m : M A) (f : A → M B) st e st' :
  m st = (Raise e, st') → (m ≫= f) st = (Raise e, st').
Proof. intros Hm. unfold mbind, M_bind. by rewrite Hm. Qed.

Lemma to_datetime_Ok env c d :
  to_datetime env c = Ok d → ∃ ts, d = Datetime ts ∧ length ts = col_length c.
Proof.
  unfold to_datetime, convert_all. intros Hd.
  destruct c as [v|v|v]; simpl; [| |]; repeat case_match; simplify_eq;
    eexists; (split; [done|]); try done; symmetry; by eapply length_mapM.
Qed.

(** The object allocated last, at the reference [length h]. *)
Section LastObject.

Context (h : list DataFrame) (x : DataFrame) (out : list string).

Lemma deref_last : deref (length h) (mkState (h ++ [x]) out) = (Ok x, mkState (h ++ [x]) out).
Proof. unfold deref. simpl. by rewrite list_lookup_total_middle. Qed.

Lemma df_empty_last :
  df_empty (length h) (mkState (h ++ [x]) out) = (Ok (is_empty x), mkState (h ++ [x]) out).
Proof. unfold df_empty. by rewrite (bind_ok _ _ _ _ _ deref_last). Qed.

Lemma has_column_last name :
  has_column (length h) name (mkState (h ++ [x]) out)
  = (Ok (bool_decide (name ∈ names x)), mkState (h ++ [x]) out).
Proof. unfold has_column. by rewrite (bind_ok _ _ _ _ _ deref_last). Qed.

Lemma getitem_last name c :
  lookup_col name (columns x) = Some c →
  getitem (length h) name (mkState (h ++ [x]) out) = (Ok c, mkState (h ++ [x]) out).
Proof. intros Hc. unfold getitem. by rewrite (bind_ok _ _ _ _ _ deref_last), Hc. Qed.


Lemma setitem_last name c :
  setitem (length h) name c (mkState (h ++ [x]) out)
  = (Ok (), mkState (h ++ [mkDataFrame (index_name x) (index x)
                             (assign_col name c (columns x))]) out).
Proof.
  unfold setitem. simpl. do 2 f_equal.
  replace (length h) with (length h + 0) by lia. by rewrite alter_app_r.
Qed.

Lemma set_index_last name c :
  lookup_col name (columns x) = Some c →
  set_index (length h) name (mkState (h ++ [x]) out)
  = (Ok (length (h ++ [x])),
     mkState ((h ++ [x]) ++ [mkDataFrame (Some name) c (drop_col name (columns x))]) out).
Proof. intros Hc. unfold set_index. by rewrite (bind_ok _ _ _ _ _ deref_last), Hc. Qed.

Lemma set_index_last_missing name :
  lookup_col name (columns x) = None →
  set_index (length h) name (mkState (h ++ [x]) out)
  = (Raise (KeyError name), mkState (h ++ [x]) out).
Proof. intros Hc. unfold set_index. by rewrite (bind_ok _ _ _ _ _ deref_last), Hc. Qed.

Lemma df_ffill_last :
  df_ffill (length h) (mkState (h ++ [x]) out)
  = (Ok (length (h ++ [x])), mkState ((h ++ [x]) ++ [ffill_frame x]) out).
Proof. unfold df_ffill. by rewrite (bind_ok _ _ _ _ _ deref_last). Qed.

Lemma index_field_last field ts :
  index x = Datetime ts →
  index_field field (length h) (mkState (h ++ [x]) out)
  = (Ok (calendar field ts), mkState (h ++ [x]) out).
Proof. intros Hx. unfold index_field. by rewrite (bind_ok _ _ _ _ _ deref_last), Hx. Qed.

End LastObject.

Lemma df_empty_run r st : df_empty r st = (Ok (is_empty (heap st !!! r)), st).
Proof. done. Qed.

Lemma df_copy_run r st :
  df_copy r st = (Ok (length (heap st)), mkState (heap st ++ [heap st !!! r]) (stdout st)).
Proof. done. Qed.

(** Rewrites the run of the next operation, given its equation. *)
Ltac step lem := erewrite bind_ok; [|apply lem; try done].

(** The run of [process_time_series] on a frame with rows and dates. *)
Lemma process_time_series_run env st r c ts :
  is_empty (heap st !!! r) = false →
  lookup_col "Date" (columns (heap st !!! r)) = Some c →
  to_datetime env c = Ok (Datetime ts) →
  ∃ df1 df2,
    process_time_series env (Some r) st
    = (Ok (Some (S (S (length (heap st))))),
       mkState (heap st ++ [df1; df2; normalized ts (heap st !!! r)]) (stdout st)).
Proof.
  intros He Hc Hts. set (df := heap st !!! r) in *.
  eexists _, _. unfold process_time_series.
  step df_empty_run. fold df. rewrite He.
  step df_copy_run. fold df.
  step has_column_last.
  rewrite bool_decide_eq_true_2 by (apply lookup_col_elem_of; by eexists).
  erewrite bind_ok; last first.
  { step getitem_last. erewrite bind_ok; [|unfold from_result; by rewrite Hts].
    apply setitem_last. }
  step set_index_last; [|apply lookup_assign_eq].
  step df_ffill_last.
  step index_field_last.
  step setitem_last.
  step index_field_last.
  step setitem_last.
  unfold mret, M_ret. simpl. rewrite !length_app. simpl.
  f_equal; [do 2 f_equal; lia|]. f_equal.
  rewrite <-!app_assoc. simpl. do 4 f_equal.
  unfold normalized. simpl. by rewrite drop_assign.
Qed.

Lemma numeric_run s st : numeric (Numeric s) st = (Ok s, st).
Proof. done. Qed.

Lemma pct_change_run env s st :
  pct_change env (Numeric s) st = (Ok (pct_change_with (default_fill_method env) s), st).
Proof. done. Qed.

Lemma rolling_run w f s st :
  rolling w f (Numeric s) st = (Ok (rolling_apply w w f s), st).
Proof. done. Qed.

(** Reads a column back through the assignments made since. *)
Ltac read_column :=
  simpl;
  repeat first [rewrite lookup_assign_eq | rewrite lookup_assign_ne by done];
  try done.

(** The run of [calculate_basic_metrics] on a frame with rows, prices and
    volumes. *)
Lemma calculate_basic_metrics_run env st r close volume :
  is_empty (heap st !!! r) = false →
  column_is (heap st !!! r) "Close" close →
  column_is (heap st !!! r) "Volume" volume →
  calculate_basic_metrics env (Some r) st
  = (Ok (Some (length (heap st))),
     mkState (heap st ++ [augmented env (heap st !!! r) close volume]) (stdout st)).
Proof.
  unfold column_is. intros He Hc Hv. set (df := heap st !!! r) in *.
  unfold calculate_basic_metrics.
  step df_empty_run. fold df. rewrite He.
  step df_copy_run. fold df.
  step getitem_last. step pct_change_run. step setitem_last.
  step getitem_last; [|read_column]. step numeric_run. step setitem_last.
  step getitem_last; [|read_column]. step numeric_run. step setitem_last.
  step getitem_last; [|read_column]. step rolling_run. step setitem_last.
  step getitem_last; [|read_column]. step pct_change_run. step setitem_last.
  step getitem_last; [|read_column]. step rolling_run. step setitem_last.
  step getitem_last; [|read_column]. step rolling_run. step setitem_last.
  step getitem_last; [|read_column]. step rolling_run. step setitem_last.
  unfold mret, M_ret. simpl. do 4 f_equal.
  unfold augmented. f_equal. by rewrite assign_assign.
Qed.

Lemma returned_process_time_series env st r c ts :
  is_empty (heap st !!! r) = false →
  lookup_col "Date" (columns (heap st !!! r)) = Some c →
  to_datetime env c = Ok (Datetime ts) →
  returned (process_time_series env (Some r) st)
  = Some (normalized ts (heap st !!! r)).
Proof.
  intros He Hc Hts.
  destruct (process_time_series_run env st r c ts He Hc Hts) as (df1 & df2 & ->).
  unfold returned. simpl.
  rewrite lookup_app_r by lia.
  by replace (S (S (length (heap st))) - length (heap st)) with 2 by lia.
Qed.

Lemma returned_calculate_basic_metrics env st r close volume :
  is_empty (heap st !!! r) = false →
  column_is (heap st !!! r) "Close" close →
  column_is (heap st !!! r) "Volume" volume →
  returned (calculate_basic_metrics env (Some r) st)
  = Some (augmented env (heap st !!! r) close volume).
Proof.
  intros He Hc Hv. rewrite (calculate_basic_metrics_run _ _ _ _ _ He Hc Hv).
  unfold returned. simpl. rewrite lookup_app_r by lia.
  by rewrite Nat.sub_diag.
Qed.

(** The derived columns of the augmented frame. *)
Lemma augmented_columns env df close volume :
  let out := augmented env df close volume in
  column_is out "Daily_Return" (daily_return env close)
  ∧ column_is out "Cum_Return" (cum_return env close)
  ∧ column_is out "Volatility_20d" (volatility_20d env close)
  ∧ column_is out "Volume_Change" (daily_return env volume)
  ∧ column_is out "5d_MA" (moving_average 5 close)
  ∧ column_is out "20d_MA" (moving_average 20 close)
  ∧ column_is out "50d_MA" (moving_average 50 close).
Proof. unfold column_is, augmented. split_and!; read_column. Qed.

(** ** What a run leaves untouched *)

Section Keeps.

Context (n : nat).

Lemma keeps_ret {A : Type} (a : A) (Q : A → Prop) : Q a → keeps n (mret a) Q.
Proof. intros HQ st Hn. simpl. split_and!; [done..|]. by intros ? [= <-]. Qed.

Lemma keeps_raise {A : Type} e (Q : A → Prop) : keeps n (raise e) Q.
Proof. intros st Hn. simpl. by split_and!. Qed.

Lemma keeps_bind {A B : Type} (m : M A) (f : A → M B) Q R :
  keeps n m Q → (∀ a, Q a → keeps n (f a) R) → keeps n (m ≫= f) R.
Proof.
  intros Hm Hf st Hn. destruct (Hm st Hn) as (Ht & Hl & HQ).
  unfold mbind, M_bind. destruct (m st) as [[a|e] st']; simpl in *.
  - destruct (Hf a (HQ a eq_refl) st' Hl) as (Ht' & Hl' & HR).
    split_and!; [congruence|done..].
  - by split_and!.
Qed.

(** An operation that only reads. *)
Lemma keeps_read {A : Type} (m : M A) :
  (∀ st, (m st).2 = st) → keeps n m (λ _, True).
Proof. intros Hm st Hn. rewrite Hm. by split_and!. Qed.

Lemma keeps_alloc df : keeps n (alloc df) (λ r, n ≤ r).
Proof.
  intros st Hn. simpl. rewrite length_app, take_app_le by done.
  split_and!; [done|lia|]. by intros ? [= <-].
Qed.

(** Assigning to a column of an object allocated during the run. *)
Lemma keeps_setitem r name c : n ≤ r → keeps n (setitem r name c) (λ _, True).
Proof.
  intros Hr st Hn. simpl. rewrite length_alter. split_and!; [|done..].
  apply list_eq. intros i. rewrite !lookup_take.
  case_decide; [|done]. rewrite list_lookup_alter_ne; [done|lia].
Qed.

Lemma keeps_deref r : keeps n (deref r) (λ _, True).
Proof. by apply keeps_read. Qed.

Lemma keeps_df_empty r : keeps n (df_empty r) (λ _, True).
Proof. by apply keeps_read. Qed.

Lemma keeps_has_column r name : keeps n (has_column r name) (λ _, True).
Proof. by apply keeps_read. Qed.

Lemma keeps_getitem r name : keeps n (getitem r name) (λ _, True).
Proof.
  apply keeps_read. intros st. unfold getitem, mbind, M_bind. simpl.
  by case_match.
Qed.

Lemma keeps_index_field field r : keeps n (index_field field r) (λ _, True).
Proof.
  apply keeps_read. intros st. unfold index_field, mbind, M_bind. simpl.
  by case_match.
Qed.

Lemma keeps_from_result {A : Type} (x : result A) : keeps n (from_result x) (λ _, True).
Proof. by apply keeps_read. Qed.

Lemma keeps_numeric c : keeps n (numeric c) (λ _, True).
Proof. apply keeps_read. intros st. by destruct c. Qed.

Lemma keeps_pct_change env c : keeps n (pct_change env c) (λ _, True).
Proof. apply keeps_read. intros st. by destruct c. Qed.

Lemma keeps_rolling w f c : keeps n (rolling w f c) (λ _, True).
Proof. apply keeps_read. intros st. by destruct c. Qed.

Lemma keeps_print line : keeps n (print line) (λ _, True).
Proof. intros st Hn. simpl. by split_and!. Qed.

Lemma keeps_df_copy r : keeps n (df_copy r) (λ r', n ≤ r').
Proof. eapply keeps_bind; [apply keeps_deref|]. intros df _. apply keeps_alloc. Qed.

Lemma keeps_df_ffill r : keeps n (df_ffill r) (λ r', n ≤ r').
Proof. eapply keeps_bind; [apply keeps_deref|]. intros df _. apply keeps_alloc. Qed.

Lemma keeps_set_index r name : keeps n (set_index r name) (λ r', n ≤ r').
Proof.
  eapply keeps_bind; [apply keeps_deref|]. intros df _.
  case_match; [apply keeps_alloc|apply keeps_raise].
Qed.

End Keeps.

Create HintDb keeps.
#[local] Hint Resolve keeps_raise keeps_df_empty keeps_has_column keeps_getitem
  keeps_index_field keeps_from_result keeps_numeric keeps_pct_change
  keeps_rolling keeps_print keeps_df_copy keeps_df_ffill keeps_set_index
  keeps_setitem : keeps.

(** Goes through a body operation by operation. *)
Ltac keeps_body :=
  repeat match goal with
    | |- keeps _ (mret _) _ => by apply keeps_ret
    | |- keeps _ (_ ≫= _) _ =>
        first [ eapply keeps_bind; [solve [eauto with keeps]|intros ? ?]
              | eapply (keeps_bind _ _ _ (λ _, True)); [|intros ? _] ]
    | |- keeps _ (if ?b then _ else _) _ => destruct b
    | |- keeps _ _ _ => solve [eauto with keeps]
    end.

Lemma keeps_process_time_series env n df :
  keeps n (process_time_series env df) (λ _, True).
Proof. unfold process_time_series. destruct df as [r|]; keeps_body. Qed.

Lemma keeps_calculate_basic_metrics env n df :
  keeps n (calculate_basic_metrics env df) (λ _, True).
Proof. unfold calculate_basic_metrics. destruct df as [r|]; keeps_body. Qed.

(** ** The claims about [process_time_series] *)

Lemma lookup_col_Some name cols c :
  lookup_col name cols = Some c → (name, c) ∈ cols.
Proof.
  induction cols as [|[n c0] cols IH]; simpl; [done|].
  case_decide; [intros [= <-]; subst; left|right; auto].
Qed.

Lemma well_formed_col_length df name c :
  well_formed df → lookup_col name (columns df) = Some c →
  col_length c = nrows df.
Proof.
  intros [Hlen _] Hc%lookup_col_Some.
  rewrite list.Forall_forall in Hlen. exact (Hlen (name, c) Hc).
Qed.

Lemma is_empty_false_nrows df : is_empty df = false → 0 < nrows df.
Proof. unfold is_empty. destruct (nrows df); [done|lia]. Qed.

(** C5. For every raw frame with rows, whose [Date] column [pd.to_datetime]
    accepts, [process_time_series] returns a frame with as many rows as the
    raw frame: no row is dropped. *)
Theorem normalize_preserves_row_count env st r c d :
  is_empty (heap st !!! r) = false →
  well_formed (heap st !!! r) →
  lookup_col "Date" (columns (heap st !!! r)) = Some c →
  to_datetime env c = Ok d →
  ∃ out, returned (process_time_series env (Some r) st) = Some out
         ∧ nrows out = nrows (heap st !!! r).
Proof.
  intros He Hwf Hc Hd.
  destruct (to_datetime_Ok _ _ _ Hd) as (ts & -> & Hts).
  exists (normalized ts (heap st !!! r)). split.
  - by eapply returned_process_time_series.
  - unfold nrows at 1. simpl. rewrite Hts. by eapply well_formed_col_length.
Qed.

(** C6, as the code has it.  The returned frame has the columns of the raw
    frame without [Date], and [DayOfWeek] and [Month]; [Date] is the name of
    its index, which holds the converted dates row by row in the order of
    the raw frame: nothing is sorted and no duplicate is removed, so the
    index increases strictly exactly when the converted dates do. *)
Theorem normalized_shape env st r c ts :
  is_empty (heap st !!! r) = false →
  lookup_col "Date" (columns (heap st !!! r)) = Some c →
  to_datetime env c = Ok (Datetime ts) →
  ∃ out, returned (process_time_series env (Some r) st) = Some out
         ∧ (∀ n, n ∈ names out ↔
                 (n ∈ names (heap st !!! r) ∧ n ≠ "Date")
                 ∨ n = "DayOfWeek" ∨ n = "Month")
         ∧ index_name out = Some "Date"
         ∧ index out = Datetime ts
         ∧ (index_increasing out ↔ strictly_increasing ts).
Proof.
  intros He Hc Hts. exists (normalized ts (heap st !!! r)).
  split; [by eapply returned_process_time_series|].
  split_and!; [|done..].
  intros n. unfold names, normalized. simpl.
  rewrite !names_assign, names_ffill, names_drop. naive_solver.
Qed.

(** Every column of the returned frame is forward filled, the two calendar
    columns apart. *)
Lemma normalized_forward_filled ts df name s :
  name ≠ "DayOfWeek" → name ≠ "Month" →
  column_is (normalized ts df) name s → forward_filled s.
Proof.
  unfold column_is, normalized. simpl. intros H1 H2.
  rewrite !lookup_assign_ne by done.
  induction (drop_col "Date" (columns df)) as [|[n c] cols IH]; simpl; [done|].
  case_decide; [|done]. destruct c; simpl; intros [= <-].
  apply forward_filled_ffill.
Qed.

(** C9. Forward fill is idempotent: on a series, on a frame, and as the
    operation [df.ffill()] that [process_time_series] performs, filling what
    is already filled gives the same values again. *)
Theorem ffill_idempotent :
  (∀ (A : Type) (l : list (option A)), ffill (ffill l) = ffill l)
  ∧ (∀ df, ffill_frame (ffill_frame df) = ffill_frame df)
  ∧ (∀ r st, ∃ r1 st1 r2 st2,
        df_ffill r st = (Ok r1, st1) ∧ df_ffill r1 st1 = (Ok r2, st2)
        ∧ heap st2 !!! r2 = heap st1 !!! r1).
Proof.
  assert (∀ df, ffill_frame (ffill_frame df) = ffill_frame df) as Hframe.
  { intros [iname idx cols]. unfold ffill_frame. simpl. f_equal.
    rewrite <-list_fmap_compose. apply list_fmap_ext.
    intros i [n c] _. simpl. by rewrite ffill_column_idemp. }
  split_and!; [intros A l; apply ffill_from_idemp|done|].
  intros r st. eexists _, _, _, _. split_and!; [done| |].
  - apply df_ffill_last.
  - simpl. by rewrite !list_lookup_total_middle, Hframe by done.
Qed.

(** C8. Given [None] or an empty frame, [process_time_series] and
    [calculate_basic_metrics] return [None]: no exception is raised, nothing
    is printed, and no object is created or changed. *)
Theorem absent_propagates env st df :
  absent_or_empty st df = true →
  process_time_series env df st = (Ok None, st)
  ∧ calculate_basic_metrics env df st = (Ok None, st).
Proof.
  destruct df as [r|]; simpl; [|done]. intros He.
  unfold process_time_series, calculate_basic_metrics.
  by rewrite !(bind_ok _ _ _ _ _ (df_empty_run r st)), He.
Qed.

(** C10. Neither function changes an object that exists when it is called,
    the frame it is given among them: after the run, returned or raised,
    the heap starts with the objects it held before, unchanged. *)
Theorem inputs_not_mutated env df st :
  take (length (heap st)) (heap (process_time_series env df st).2) = heap st
  ∧ take (length (heap st)) (heap (calculate_basic_metrics env df st).2) = heap st.
Proof.
  split.
  - destruct (keeps_process_time_series env (length (heap st)) df st) as [Ht _];
      [done|]. by rewrite Ht, firstn_all.
  - destruct (keeps_calculate_basic_metrics env (length (heap st)) df st) as [Ht _];
      [done|]. by rewrite Ht, firstn_all.
Qed.


(** ** The claims about [calculate_basic_metrics] *)

Lemma well_formed_length df name s :
  is_empty df = false → well_formed df → column_is df name s → 0 < length s.
Proof.
  intros He Hwf Hs. apply is_empty_false_nrows in He.
  by rewrite <-(well_formed_col_length df name (Numeric s) Hwf Hs) in He.
Qed.

(** C1. For every frame with rows whose [Close] is forward filled, as every
    column of a normalized series is, [calculate_basic_metrics] returns a
    frame whose [Daily_Return] is undefined in row 0 and, in a row [i > 0]
    with the closes [ci] of the row and [cp] of the row before, [cp] not
    zero, is the number [(ci / cp - 1) * 100]; in a row where one of the
    two closes is missing it is undefined. *)
Theorem daily_return_formula env st r close volume :
  is_empty (heap st !!! r) = false →
  well_formed (heap st !!! r) →
  column_is (heap st !!! r) "Close" close →
  column_is (heap st !!! r) "Volume" volume →
  forward_filled close →
  ∃ out dr,
    returned (calculate_basic_metrics env (Some r) st) = Some out
    ∧ column_is out "Daily_Return" dr
    ∧ length dr = length close
    ∧ dr !! 0 = Some None
    ∧ (∀ i ci cp, 0 < i →
         close !! i = Some (Some ci) → close !! (i - 1) = Some (Some cp) →
         cp ≠ 0%Qc →
         dr !! i = Some (Some ((ci / cp - 1) * Qc_of_Z 100)%Qc))
    ∧ (∀ i, 0 < i → i < length close →
         close !! i = Some None ∨ close !! (i - 1) = Some None →
         dr !! i = Some None).
Proof.
  intros He Hwf Hc Hv Hf.
  exists (augmented env (heap st !!! r) close volume), (daily_return env close).
  split; [by apply returned_calculate_basic_metrics|].
  split; [apply augmented_columns|].
  split; [apply length_daily_return|].
  split; [apply daily_return_lookup_0; [done|by eapply well_formed_length]|].
  split.
  - intros [|i] ci cp Hi Hci Hcp Hnz; [lia|].
    rewrite Nat.sub_1_r in Hcp. simpl in Hcp. by apply daily_return_present.
  - intros [|i] Hi Hl Hn; [lia|].
    rewrite Nat.sub_1_r in Hn. simpl in Hn. by apply daily_return_absent.
Qed.

(** C3. For every such frame, with [m] the number of leading rows that
    have no [Close]: [Daily_Return] and [Cum_Return] are undefined in the
    rows up to [m], row 0 among them; the first row that can have a daily
    return is [m + 1], and [Cum_Return] at a row [i > m] whose daily
    returns of the rows [m+1..i] are the numbers [xs] is the product of
    the [1 + x / 100] over them, minus one, times 100.  With no [Close]
    equal to zero every row after [m] has such a history. *)
Theorem cum_return_compounds env st r close volume :
  is_empty (heap st !!! r) = false →
  well_formed (heap st !!! r) →
  column_is (heap st !!! r) "Close" close →
  column_is (heap st !!! r) "Volume" volume →
  forward_filled close →
  ∃ out dr cum,
    returned (calculate_basic_metrics env (Some r) st) = Some out
    ∧ column_is out "Daily_Return" dr
    ∧ column_is out "Cum_Return" cum
    ∧ length cum = length close
    ∧ (∀ i, i < length close → i ≤ leading_missing close →
         dr !! i = Some None ∧ cum !! i = Some None)
    ∧ (∀ i xs, leading_missing close < i → i < length close →
         take (i - leading_missing close) (drop (S (leading_missing close)) dr)
         = Some <$> xs →
         cum !! i
         = Some (Some ((Qc_prod ((λ x, 1 + x / Qc_of_Z 100)%Qc <$> xs) - 1)
                       * Qc_of_Z 100)%Qc))
    ∧ (nonzero_values close →
       ∀ i, leading_missing close < i → i < length close →
         ∃ xs, take (i - leading_missing close)
                    (drop (S (leading_missing close)) dr) = Some <$> xs
               ∧ length xs = i - leading_missing close).
Proof.
  intros He Hwf Hc Hv Hf.
  exists (augmented env (heap st !!! r) close volume),
    (daily_return env close), (cum_return env close).
  split; [by apply returned_calculate_basic_metrics|].
  split; [apply augmented_columns|]. split; [apply augmented_columns|].
  split; [apply length_cum_return|].
  pose proof (length_daily_return env close) as Hlen.
  split_and!.
  - intros i Hi Hm.
    pose proof (daily_return_leading env close i Hf Hi Hm) as Hdr.
    split; [done|]. by rewrite (cum_return_lookup _ _ _ _ Hdr).
  - intros i xs Hm Hi Hxs. by apply cum_return_compound_from.
  - intros Hnz i Hm Hi.
    destruct (all_present (take (i - leading_missing close)
                (drop (S (leading_missing close)) (daily_return env close))))
      as [xs Hxs].
    + intros j Hj. pose proof (lookup_lt_Some _ _ _ Hj) as Hlt.
      rewrite length_take, length_drop in Hlt.
      rewrite lookup_take_lt, lookup_drop in Hj by lia.
      apply daily_return_missing in Hj; [lia|done..|lia].
    + exists xs. split; [done|].
      rewrite <-(length_fmap Some xs), <-Hxs, length_take, length_drop. lia.
Qed.

(** A rolling column whose aggregation answers every full window is
    undefined exactly in the rows before [k + w - 1], when the missing
    entries of the series are its first [k]. *)
Lemma rolling_missing_iff w k f (s : series) i :
  0 < w →
  (∀ j, j < length s → s !! j = Some None ↔ j < k) →
  (∀ obs, length obs = w → is_Some (f obs)) →
  i < length s →
  rolling_apply w w f s !! i = Some None ↔ i < k + w - 1.
Proof.
  intros Hw Hs Hf Hi. split.
  - intros Hnone. destruct (decide (i < k + w - 1)) as [|Hge]; [done|].
    destruct (rolling_defined w k f s Hw Hs i Hi ltac:(lia)) as (obs & _ & Hl & Hr).
    rewrite Hr in Hnone. destruct (Hf obs Hl) as [x Hx]. congruence.
  - by apply rolling_undefined.
Qed.

(** A sum of squares is not negative, and so is the sample variance. *)
Lemma Qc_square_nonneg (y : Qc) : (0 ≤ y * y)%Qc.
Proof.
  destruct (Qclt_le_dec y 0) as [Hneg|Hpos].
  - replace (y * y)%Qc with ((- y) * (- y))%Qc by ring.
    assert (0 ≤ - y)%Qc as Hy.
    { apply Qclt_le_weak in Hneg. apply Qcle_minus_iff in Hneg.
      by rewrite Qcplus_0_l in Hneg. }
    by apply Qcmult_nonneg_nonneg.
  - by apply Qcmult_nonneg_nonneg.
Qed.

Lemma Qc_sum_squares_nonneg (m : Qc) (obs : list Qc) :
  (0 ≤ Qc_sum ((λ x, (x - m) * (x - m))%Qc <$> obs))%Qc.
Proof.
  induction obs as [|x obs IH]; [done|].
  rewrite fmap_cons. unfold Qc_sum. simpl. fold (Qc_sum ((λ x, (x - m) * (x - m))%Qc <$> obs)).
  apply Qcplus_nonneg_nonneg; [apply Qc_square_nonneg|done].
Qed.

Lemma Qc_div_nonneg (a b : Qc) : (0 ≤ a)%Qc → (0 < b)%Qc → (0 ≤ a / b)%Qc.
Proof.
  intros Ha Hb. unfold Qcdiv. apply Qcmult_nonneg_nonneg; [done|].
  by apply Qclt_le_weak, Qcinv_pos.
Qed.

(** The standard deviation of twenty numbers is the square root of the sum
    of their squared distances to their mean, over nineteen. *)
Lemma std_of_twenty env obs :
  length obs = 20 →
  std env obs
  = Some (fsqrt env
            (Qc_sum ((λ x, (x - Qc_sum obs / Qc_of_Z 20)
                           * (x - Qc_sum obs / Qc_of_Z 20))%Qc <$> obs)
             / Qc_of_Z 19)%Qc).
Proof.
  intros Hl. unfold std, variance. rewrite Hl.
  by rewrite decide_False by lia.
Qed.

(** The rounded square root is a fraction over the denominator of its
    argument, and a square root to within 1. *)
Lemma sqrt_down_fraction (x : Qc) :
  sqrt_down x = Q2Qc (Z.sqrt (Qnum x * Zpos (Qden x)) # Qden x).
Proof.
  unfold sqrt_down. apply Qc_is_canon. destruct x as [[n d] Hx].
  cbn [this Q2Qc Qcmult Qcinv Qcdiv Qc_of_Z Qnum Qden].
  rewrite !Qred_correct.
  unfold Qeq, Qmult, Qinv, inject_Z. cbn [Qnum Qden]. lia.
Qed.

Lemma sqrt_down_within : sqrt_within 1 sqrt_down.
Proof.
  intros x Hx.
  exists (sqrt_down x), (sqrt_down x + 1)%Qc.
  assert ((0 ≤ sqrt_down x)%Qc ∧ (sqrt_down x * sqrt_down x ≤ x)%Qc
          ∧ (x ≤ (sqrt_down x + 1) * (sqrt_down x + 1))%Qc) as (H0 & Hlo & Hhi).
  { rewrite sqrt_down_fraction. destruct x as [[n d] Hcan].
    unfold Qcle in *. cbn [this Q2Qc Qcmult Qcplus Qnum Qden] in *.
    rewrite ?Qred_correct.
    change (Qred 0) with 0%Q in *. change (Qred 1) with 1%Q.
    unfold Qle, Qmult, Qplus in *; cbn [Qnum Qden] in *.
    assert (0 ≤ n)%Z as Hn by lia.
    pose proof (Z.sqrt_spec (n * Z.pos d) ltac:(nia)) as [Hr Hr'].
    pose proof (Z.sqrt_nonneg (n * Z.pos d)).
    set (r := Z.sqrt (n * Z.pos d)) in *.
    split; [lia|]. split.
    - rewrite Pos2Z.inj_mul. nia.
    - rewrite !Pos2Z.inj_mul. nia. }
  split_and!; [done|apply Qcle_refl| | |done|done].
  - rewrite <-(Qcplus_0_r (sqrt_down x)) at 1.
    by apply Qcplus_le_mono_l.
  - replace (sqrt_down x + 1 - sqrt_down x)%Qc with 1%Qc by ring.
    apply Qcle_refl.
Qed.

(** C2, as the code has it.  For every frame with rows whose [Close] is
    forward filled and never zero, [Volatility_20d] is undefined exactly in
    the rows before [m + 20], [m] being the number of leading rows with no
    [Close] (with every [Close] present: before row 20, since the window
    that ends at row 19 holds the undefined [Daily_Return] of row 0); from
    there on it is the square root, as the environment takes it, of the
    sample variance of the 20 daily returns [obs] that end at the row: the
    sum of their squared distances to their mean [Qc_sum obs / 20], over
    19.  With a square root to within [eps] it lies, with the root of
    that variance, between two numbers at most [eps] apart. *)
Theorem volatility_window env eps st r close volume :
  is_empty (heap st !!! r) = false →
  column_is (heap st !!! r) "Close" close →
  column_is (heap st !!! r) "Volume" volume →
  forward_filled close →
  nonzero_values close →
  sqrt_within eps (fsqrt env) →
  ∃ out dr vol,
    returned (calculate_basic_metrics env (Some r) st) = Some out
    ∧ column_is out "Daily_Return" dr
    ∧ column_is out "Volatility_20d" vol
    ∧ length vol = length close
    ∧ (∀ i, i < length close →
         vol !! i = Some None ↔ i < leading_missing close + 20)
    ∧ (∀ i, i < length close → leading_missing close + 20 ≤ i →
         ∃ obs s lo hi,
           window 20 i dr = Some <$> obs ∧ length obs = 20
           ∧ vol !! i = Some (Some s)
           ∧ let m := (Qc_sum obs / Qc_of_Z 20)%Qc in
             let v := (Qc_sum ((λ x, (x - m) * (x - m))%Qc <$> obs)
                       / Qc_of_Z 19)%Qc in
             s = fsqrt env v
             ∧ (0 ≤ lo)%Qc ∧ (lo ≤ s)%Qc ∧ (s ≤ hi)%Qc ∧ (hi - lo ≤ eps)%Qc
             ∧ (lo * lo ≤ v)%Qc ∧ (v ≤ hi * hi)%Qc).
Proof.
  intros He Hc Hv Hf Hnz Hsqrt.
  exists (augmented env (heap st !!! r) close volume),
    (daily_return env close), (volatility_20d env close).
  split; [by apply returned_calculate_basic_metrics|].
  split; [apply augmented_columns|]. split; [apply augmented_columns|].
  pose proof (length_daily_return env close) as Hlen.
  assert (∀ j, j < length (daily_return env close) →
            daily_return env close !! j = Some None
            ↔ j < S (leading_missing close)) as Hmiss.
  { intros j Hj. apply daily_return_missing; [done..|lia]. }
  split; [unfold volatility_20d; by rewrite length_rolling_apply|].
  split.
  - intros i Hi. unfold volatility_20d.
    rewrite (rolling_missing_iff 20 (S (leading_missing close))); [lia|lia|done| |lia].
    intros obs Hl. apply std_is_Some. lia.
  - intros i Hi Hk.
    destruct (rolling_defined 20 (S (leading_missing close)) (std env)
                (daily_return env close) ltac:(lia) Hmiss i ltac:(lia) ltac:(lia))
      as (obs & Hobs & Hl & Hr).
    rewrite (std_of_twenty env obs Hl) in Hr.
    set (m := (Qc_sum obs / Qc_of_Z 20)%Qc) in *.
    set (v := (Qc_sum ((λ x, (x - m) * (x - m))%Qc <$> obs) / Qc_of_Z 19)%Qc) in *.
    assert (0 ≤ v)%Qc as Hv0.
    { apply Qc_div_nonneg; [apply Qc_sum_squares_nonneg|by_evaluation]. }
    destruct (Hsqrt v Hv0) as (lo & hi & Hbounds).
    exists obs, (fsqrt env v), lo, hi. cbv zeta. fold m v.
    split_and!; try done; apply Hbounds.
Qed.

(** C4, as the code has it.  For every frame with rows whose [Close] is
    forward filled, each of [5d_MA], [20d_MA] and [50d_MA] is undefined
    exactly in the rows before [m + w - 1], [w] being its window and [m]
    the number of leading rows with no [Close] (with every [Close] present:
    before row [w - 1], rows 0 to 18 for [20d_MA]); from there on it is the
    sum of the [w] values of [Close] that end at the row, divided by [w]. *)
Theorem moving_average_window env st r close volume :
  is_empty (heap st !!! r) = false →
  column_is (heap st !!! r) "Close" close →
  column_is (heap st !!! r) "Volume" volume →
  forward_filled close →
  ∃ out ma5 ma20 ma50,
    returned (calculate_basic_metrics env (Some r) st) = Some out
    ∧ column_is out "5d_MA" ma5
    ∧ column_is out "20d_MA" ma20
    ∧ column_is out "50d_MA" ma50
    ∧ ∀ w ma, (w, ma) ∈ [(5, ma5); (20, ma20); (50, ma50)] →
        length ma = length close
        ∧ ∀ i, i < length close →
            (ma !! i = Some None ↔ i < leading_missing close + w - 1)
            ∧ (leading_missing close + w - 1 ≤ i →
               ∃ obs, window w i close = Some <$> obs ∧ length obs = w
                      ∧ ma !! i = Some (Some (Qc_sum obs / Qc_of_nat w)%Qc)).
Proof.
  intros He Hc Hv Hf.
  exists (augmented env (heap st !!! r) close volume),
    (moving_average 5 close), (moving_average 20 close), (moving_average 50 close).
  split; [by apply returned_calculate_basic_metrics|].
  do 3 (split; [apply augmented_columns|]).
  assert (∀ w, 0 < w →
            length (moving_average w close) = length close
            ∧ ∀ i, i < length close →
                (moving_average w close !! i = Some None
                 ↔ i < leading_missing close + w - 1)
                ∧ (leading_missing close + w - 1 ≤ i →
                   ∃ obs, window w i close = Some <$> obs ∧ length obs = w
                          ∧ moving_average w close !! i
                            = Some (Some (Qc_sum obs / Qc_of_nat w)%Qc))) as Hma.
  { intros w Hw. unfold moving_average.
    split; [apply length_rolling_apply|]. intros i Hi. split.
    - apply rolling_missing_iff; [done| |intros obs Hl; apply mean_is_Some; lia|done].
      intros j Hj. by apply forward_filled_missing.
    - intros Hk.
      destruct (rolling_defined w (leading_missing close) mean close Hw
                  (λ j Hj, forward_filled_missing close j Hf Hj) i Hi Hk)
        as (obs & Hobs & Hl & Hr).
      exists obs. split_and!; [done..|]. rewrite Hr.
      destruct obs; simpl in *; [lia|]. by rewrite Hl. }
  intros w ma Hin. rewrite !elem_of_cons, elem_of_nil in Hin.
  destruct Hin as [[= -> ->]|[[= -> ->]|[[= -> ->]|[]]]]; apply Hma; lia.
Qed.

(** ** Frames stay well formed *)

Lemma assign_col_NoDup name c cols :
  NoDup cols.*1 → NoDup (assign_col name c cols).*1.
Proof.
  induction cols as [|[n c0] cols IH]; simpl.
  - intros _. apply NoDup_singleton.
  - rewrite !list.NoDup_cons. intros [Hn Hnd].
    destruct (decide (n = name)) as [->|Hne]; simpl; rewrite list.NoDup_cons.
    + done.
    + split; [|by apply IH]. rewrite names_assign. naive_solver.
Qed.

Lemma assign_col_length name c cols k :
  Forall (λ p, col_length p.2 = k) cols → col_length c = k →
  Forall (λ p, col_length p.2 = k) (assign_col name c cols).
Proof.
  intros Hcols Hc. induction Hcols as [|[n c0] cols Hp Hcols IH]; simpl.
  - by repeat constructor.
  - case_decide; constructor; done.
Qed.

Lemma normalized_well_formed ts df :
  well_formed df → length ts = nrows df → well_formed (normalized ts df).
Proof.
  intros [Hlen Hnd] Hts. unfold well_formed, normalized, names, calendar. simpl.
  split.
  - do 2 (apply assign_col_length; [|simpl; by rewrite length_fmap]).
    unfold nrows. simpl. rewrite Hts. apply Forall_fmap.
    apply list.Forall_forall. intros [n c] [_ Hin]%list_elem_of_filter. simpl.
    rewrite col_length_ffill. rewrite list.Forall_forall in Hlen.
    exact (Hlen (n, c) Hin).
  - do 2 apply assign_col_NoDup. rewrite names_ffill.
    eapply sublist_NoDup; [exact Hnd|]. apply fmap_sublist, sublist_filter.
Qed.

Lemma augmented_well_formed env df close volume :
  well_formed df →
  column_is df "Close" close → column_is df "Volume" volume →
  well_formed (augmented env df close volume).
Proof.
  intros Hwf Hc Hv.
  pose proof (well_formed_col_length df _ _ Hwf Hc) as Hlc.
  pose proof (well_formed_col_length df _ _ Hwf Hv) as Hlv.
  destruct Hwf as [Hlen Hnd]. simpl in Hlc, Hlv.
  unfold well_formed, augmented, names, moving_average, volatility_20d. simpl.
  split.
  - change (nrows {| index_name := index_name df; index := index df;
                     columns := _ |}) with (nrows df).
    repeat (apply assign_col_length;
            [|simpl; by rewrite ?length_rolling_apply, ?length_cum_return,
                                ?length_daily_return]).
    done.
  - by repeat apply assign_col_NoDup.
Qed.

(** ** The two stages in a row *)

Lemma lookup_col_drop_ne name name' cols :
  name ≠ name' → lookup_col name (drop_col name' cols) = lookup_col name cols.
Proof.
  intros Hne. unfold drop_col. induction cols as [|[n c] cols IH]; [done|].
  destruct (decide (n = name')) as [->|Hn].
  - rewrite filter_cons_False by (simpl; naive_solver). simpl.
    by rewrite decide_False.
  - rewrite filter_cons_True by done. simpl. by rewrite IH.
Qed.

Lemma lookup_col_ffill name (cols : list (string * column)) :
  lookup_col name (prod_map id ffill_column <$> cols)
  = ffill_column <$> lookup_col name cols.
Proof.
  induction cols as [|[n c] cols IH]; [done|]. simpl. by case_decide.
Qed.

(** A number column of the raw frame is, forward filled, a column of the
    normalized frame. *)
Lemma normalized_column ts df name s :
  name ≠ "Date" → name ≠ "DayOfWeek" → name ≠ "Month" →
  column_is df name s → column_is (normalized ts df) name (ffill s).
Proof.
  unfold column_is, normalized. simpl. intros H1 H2 H3 Hs.
  by rewrite !lookup_assign_ne, lookup_col_ffill, lookup_col_drop_ne, Hs by done.
Qed.

Lemma assign_col_nonempty name c cols : assign_col name c cols ≠ [].
Proof. destruct cols as [|[n c0] cols]; simpl; [done|]. by case_decide. Qed.

Lemma normalized_nonempty ts df :
  0 < length ts → is_empty (normalized ts df) = false.
Proof.
  intros Hts. unfold is_empty, nrows, normalized. simpl.
  destruct (length ts); [lia|].
  pose proof (assign_col_nonempty "Month" (calendar month ts)
    (assign_col "DayOfWeek" (calendar dayofweek ts)
       (prod_map id ffill_column <$> drop_col "Date" (columns df)))).
  by case_match.
Qed.

Lemma ffill_all_present {A : Type} (l : list A) : ffill (Some <$> l) = Some <$> l.
Proof.
  unfold ffill. generalize (@None A).
  induction l as [|x l IH]; intros last; simpl; [done|]. by rewrite IH.
Qed.

Lemma leading_missing_all_present {A : Type} (l : list A) :
  leading_missing (Some <$> l) = 0.
Proof. by destruct l. Qed.

(** The run of the two stages on a raw frame with dates, prices and
    volumes. *)
Lemma pipeline_run env raw c ts close volume :
  is_empty raw = false → well_formed raw →
  lookup_col "Date" (columns raw) = Some c →
  to_datetime env c = Ok (Datetime ts) →
  column_is raw "Close" close → column_is raw "Volume" volume →
  returned (pipeline env (only raw))
  = Some (augmented env (normalized ts raw) (ffill close) (ffill volume)).
Proof.
  intros He Hwf Hc Hts Hcl Hvo. unfold pipeline.
  destruct (process_time_series_run env (only raw) 0 c ts He Hc Hts)
    as (df1 & df2 & ->).
  assert (0 < length ts) as Hlen.
  { destruct (to_datetime_Ok _ _ _ Hts) as (ts' & [= <-] & ->).
    rewrite (well_formed_col_length raw "Date" c Hwf Hc).
    by apply is_empty_false_nrows. }
  rewrite (calculate_basic_metrics_run env _ 3 (ffill close) (ffill volume)).
  - done.
  - by apply normalized_nonempty.
  - by apply (normalized_column ts raw "Close").
  - by apply (normalized_column ts raw "Volume").
Qed.

(** A cell of a series that is not missing holds a number. *)
Lemma present_cell (s : series) i :
  i < length s → s !! i ≠ Some None → ∃ x, s !! i = Some (Some x).
Proof.
  intros Hi Hs. destruct (lookup_lt_is_Some_2 s i Hi) as [[x|] Hx]; [by exists x|].
  by destruct Hs.
Qed.

(** The end-to-end scenario of the specification, for any number of rows:
    on a raw frame whose dates convert and whose closes and volumes are all
    present and never zero, the two stages return a frame with as many rows,
    in which every derived metric is defined from row 50 on. *)
Theorem pipeline_defines_all_metrics env raw c ts cs vs :
  is_empty raw = false → well_formed raw →
  lookup_col "Date" (columns raw) = Some c →
  to_datetime env c = Ok (Datetime ts) →
  column_is raw "Close" (Some <$> cs) → Forall (λ x, x ≠ 0%Qc) cs →
  column_is raw "Volume" (Some <$> vs) → Forall (λ x, x ≠ 0%Qc) vs →
  ∃ out,
    returned (pipeline env (only raw)) = Some out
    ∧ nrows out = nrows raw
    ∧ ∀ name, name ∈ ["Daily_Return"; "Cum_Return"; "Volatility_20d";
                      "Volume_Change"; "5d_MA"; "20d_MA"; "50d_MA"] →
        ∃ s, column_is out name s
             ∧ ∀ i, 50 ≤ i → i < nrows raw → ∃ x, s !! i = Some (Some x).
Proof.
  intros He Hwf Hc Hts Hcl Hcz Hvo Hvz.
  pose proof (well_formed_col_length raw _ _ Hwf Hcl) as Hlc.
  pose proof (well_formed_col_length raw _ _ Hwf Hvo) as Hlv.
  pose proof (well_formed_col_length raw _ _ Hwf Hc) as Hld.
  destruct (to_datetime_Ok _ _ _ Hts) as (ts' & [= <-] & Hlt).
  simpl in Hlc, Hlv.
  eexists. split; [by eapply pipeline_run|].
  split; [unfold nrows at 1; simpl; lia|].
  rewrite !ffill_all_present.
  destruct (augmented_columns env (normalized ts raw) (Some <$> cs) (Some <$> vs))
    as (Hdr & Hcum & Hvol & Hvc & H5 & H20 & H50).
  assert (∀ xs : list Qc, Forall (λ x, x ≠ 0%Qc) xs →
            forward_filled (Some <$> xs) ∧ nonzero_values (Some <$> xs)) as Hok.
  { intros xs Hxs. split; [apply ffill_all_present|].
    apply list.Forall_fmap. eapply list.Forall_impl; [exact Hxs|]. simpl. congruence. }
  assert (∀ xs : list Qc, Forall (λ x, x ≠ 0%Qc) xs → ∀ i, 1 ≤ i →
            i < length (Some <$> xs) →
            ∃ x, daily_return env (Some <$> xs) !! i = Some (Some x)) as Hret.
  { intros xs Hxs i Hi Hn. destruct (Hok xs Hxs) as [Hf Hnz].
    apply present_cell; [by rewrite length_daily_return|].
    rewrite daily_return_missing, leading_missing_all_present by done. lia. }
  assert (∀ w, 0 < w → ∀ i, w - 1 ≤ i → i < length (Some <$> cs) →
            ∃ x, moving_average w (Some <$> cs) !! i = Some (Some x)) as Hma.
  { intros w Hw i Hi Hn. unfold moving_average.
    apply present_cell; [by rewrite length_rolling_apply|].
    rewrite (rolling_missing_iff w 0); [lia|done| | |done].
    - intros j Hj. rewrite forward_filled_missing by (done || apply ffill_all_present).
      by rewrite leading_missing_all_present.
    - intros obs Hl. apply mean_is_Some. lia. }
  intros name Hin. rewrite !elem_of_cons, elem_of_nil in Hin.
  destruct Hin as [->|[->|[->|[->|[->|[->|[->|[]]]]]]]]; eexists; (split; [done|]);
    intros i Hi Hn.
  - apply Hret; [done|lia|lia].
  - destruct (Hret cs Hcz i) as [x Hx]; [lia..|].
    rewrite (cum_return_lookup _ _ _ _ Hx). by eexists.
  - destruct (Hok cs Hcz) as [Hf Hnz]. unfold volatility_20d.
    apply present_cell; [rewrite length_rolling_apply, length_daily_return; lia|].
    rewrite (rolling_missing_iff 20 1); [lia|lia| | |].
    + intros j Hj. rewrite length_daily_return in Hj.
      by rewrite daily_return_missing, leading_missing_all_present.
    + intros obs Hl. apply std_is_Some. lia.
    + rewrite length_daily_return. lia.
  - apply Hret; [done|lia|lia].
  - apply Hma; lia.
  - apply Hma; lia.
  - apply Hma; lia.
Qed.

(** ** What the code does where the specification is silent *)

(** On a frame with rows and no [Date] column the guard skips the
    conversion and [set_index] raises [KeyError]. *)
Theorem normalize_without_date env st r :
  is_empty (heap st !!! r) = false →
  lookup_col "Date" (columns (heap st !!! r)) = None →
  (process_time_series env (Some r) st).1 = Raise (KeyError "Date").
Proof.
  intros He Hc. unfold process_time_series.
  step df_empty_run. rewrite He. step df_copy_run. step has_column_last.
  rewrite bool_decide_eq_false_2; last first.
  { intros [c Hin]%lookup_col_elem_of. congruence. }
  erewrite bind_ok; [|done].
  by erewrite bind_raise; [|by apply set_index_last_missing].
Qed.

(** When the provider answers with no row, or raises, [get_stock_data]
    returns [None] and prints one line that names the symbol. *)
Theorem get_stock_data_absent env symbol period interval st :
  (∀ df df', history env symbol period interval = Ok df →
     reset_index df = Ok df' → is_empty df' = true →
     get_stock_data env symbol period interval st
     = (Ok None, mkState (heap st ++ [df'])
                   (stdout st ++ ["No data found for " +:+ symbol])))
  ∧ (∀ e, history env symbol period interval = Raise e →
       get_stock_data env symbol period interval st
       = (Ok None, mkState (heap st)
                     (stdout st ++ ["Error retrieving data for " +:+ symbol
                                    +:+ ": " +:+ str_of_exn env e]))).
Proof.
  split.
  - intros df df' Hh Hr He. unfold get_stock_data, try_except.
    erewrite bind_ok; [|unfold from_result; by rewrite Hh].
    erewrite bind_ok; [|unfold from_result; by rewrite Hr].
    erewrite bind_ok; [|done]. simpl.
    erewrite bind_ok; [|apply df_empty_last]. by rewrite He.
  - intros e Hh. unfold get_stock_data, try_except.
    erewrite bind_raise; [|unfold from_result; by rewrite Hh]. done.
Qed.

(** ** The claims on the example frames *)

Lemma normalize_preserves_row_count_witness :
  ∃ out, returned (process_time_series offline (Some 0) (only raw3)) = Some out
         ∧ nrows out = nrows (heap (only raw3) !!! 0).
Proof.
  apply (normalize_preserves_row_count offline (only raw3) 0
           (Datetime (days_from 19723 3)) (Datetime (days_from 19723 3)));
    [reflexivity|split; by_evaluation|reflexivity|reflexivity].
Defined.

Lemma normalized_shape_witness :
  ∃ out, returned (process_time_series offline (Some 0) (only raw3)) = Some out
         ∧ (∀ n, n ∈ names out ↔
                 (n ∈ names (heap (only raw3) !!! 0) ∧ n ≠ "Date")
                 ∨ n = "DayOfWeek" ∨ n = "Month")
         ∧ index_name out = Some "Date"
         ∧ index out = Datetime (days_from 19723 3)
         ∧ (index_increasing out ↔ strictly_increasing (days_from 19723 3)).
Proof.
  apply (normalized_shape offline (only raw3) 0 (Datetime (days_from 19723 3)));
    reflexivity.
Defined.

(** C6 as the specification words it fails on three days in order: [Date]
    is a column of the raw frame and no column of the returned frame. *)
Lemma normalized_shape_counterexample :
  ∃ out, returned (process_time_series offline (Some 0) (only raw3)) = Some out
         ∧ index_increasing out
         ∧ ¬ spec_normalized_shape raw3 out.
Proof.
  exists (normalized (days_from 19723 3) raw3).
  split; [vm_compute; reflexivity|]. split; [by vm_compute|].
  intros [Hn _].
  assert ("Date" ∉ names (normalized (days_from 19723 3) raw3)) as Hout
    by by_evaluation.
  apply Hout, Hn. left. by_evaluation.
Qed.

Lemma absent_propagates_witness :
  process_time_series offline (Some 0) (only no_rows) = (Ok None, only no_rows)
  ∧ calculate_basic_metrics offline (Some 0) (only no_rows) = (Ok None, only no_rows).
Proof. apply (absent_propagates offline (only no_rows) (Some 0)). reflexivity. Defined.



Lemma daily_return_formula_witness :
  ∃ out dr,
    returned (calculate_basic_metrics offline (Some 3) (after_normalize offline raw3))
    = Some out
    ∧ column_is out "Daily_Return" dr
    ∧ length dr = length filled3
    ∧ dr !! 0 = Some None
    ∧ (∀ i ci cp, 0 < i →
         filled3 !! i = Some (Some ci) → filled3 !! (i - 1) = Some (Some cp) →
         cp ≠ 0%Qc →
         dr !! i = Some (Some ((ci / cp - 1) * Qc_of_Z 100)%Qc))
    ∧ (∀ i, 0 < i → i < length filled3 →
         filled3 !! i = Some None ∨ filled3 !! (i - 1) = Some None →
         dr !! i = Some None).
Proof.
  apply (daily_return_formula offline (after_normalize offline raw3) 3
           filled3 (prices_from 10 3));
    [reflexivity|split; by_evaluation|reflexivity|reflexivity|reflexivity].
Defined.

Lemma cum_return_compounds_witness :
  ∃ out dr cum,
    returned (calculate_basic_metrics offline (Some 3)
                (after_normalize offline raw20_late))
    = Some out
    ∧ column_is out "Daily_Return" dr
    ∧ column_is out "Cum_Return" cum
    ∧ length cum = length (None :: prices_from 101 19)
    ∧ (∀ i, i < length (None :: prices_from 101 19) →
         i ≤ leading_missing (None :: prices_from 101 19) →
         dr !! i = Some None ∧ cum !! i = Some None)
    ∧ (∀ i xs, leading_missing (None :: prices_from 101 19) < i →
         i < length (None :: prices_from 101 19) →
         take (i - leading_missing (None :: prices_from 101 19))
              (drop (S (leading_missing (None :: prices_from 101 19))) dr)
         = Some <$> xs →
         cum !! i
         = Some (Some ((Qc_prod ((λ x, 1 + x / Qc_of_Z 100)%Qc <$> xs) - 1)
                       * Qc_of_Z 100)%Qc))
    ∧ (nonzero_values (None :: prices_from 101 19) →
       ∀ i, leading_missing (None :: prices_from 101 19) < i →
         i < length (None :: prices_from 101 19) →
         ∃ xs, take (i - leading_missing (None :: prices_from 101 19))
                    (drop (S (leading_missing (None :: prices_from 101 19))) dr)
               = Some <$> xs
               ∧ length xs = i - leading_missing (None :: prices_from 101 19)).
Proof.
  apply (cum_return_compounds offline (after_normalize offline raw20_late) 3
           (None :: prices_from 101 19) (prices_from 1000 20));
    [reflexivity|split; by_evaluation|reflexivity|reflexivity|reflexivity].
Defined.

Lemma volatility_window_witness :
  ∃ out dr vol,
    returned (calculate_basic_metrics offline (Some 3) (after_normalize offline raw60))
    = Some out
    ∧ column_is out "Daily_Return" dr
    ∧ column_is out "Volatility_20d" vol
    ∧ length vol = length (prices_from 100 60)
    ∧ (∀ i, i < length (prices_from 100 60) →
         vol !! i = Some None ↔ i < leading_missing (prices_from 100 60) + 20)
    ∧ (∀ i, i < length (prices_from 100 60) →
         leading_missing (prices_from 100 60) + 20 ≤ i →
         ∃ obs s lo hi,
           window 20 i dr = Some <$> obs ∧ length obs = 20
           ∧ vol !! i = Some (Some s)
           ∧ let m := (Qc_sum obs / Qc_of_Z 20)%Qc in
             let v := (Qc_sum ((λ x, (x - m) * (x - m))%Qc <$> obs)
                       / Qc_of_Z 19)%Qc in
             s = fsqrt offline v
             ∧ (0 ≤ lo)%Qc ∧ (lo ≤ s)%Qc ∧ (s ≤ hi)%Qc ∧ (hi - lo ≤ 1)%Qc
             ∧ (lo * lo ≤ v)%Qc ∧ (v ≤ hi * hi)%Qc).
Proof.
  apply (volatility_window offline 1%Qc (after_normalize offline raw60) 3
           (prices_from 100 60) (prices_from 1000 60));
    [reflexivity|reflexivity|reflexivity|reflexivity|by_evaluation
    |exact sqrt_down_within].
Defined.

(** C2 as the specification words it fails on twenty days with every close
    present: the whole of [Volatility_20d] is undefined, row 19 included. *)
Lemma volatility_window_counterexample :
  ∃ out, returned (pipeline offline (only raw20)) = Some out
         ∧ nrows out = 20
         ∧ column_is out "Volatility_20d" (replicate 20 None)
         ∧ ¬ spec_undefined_below 19 (replicate 20 None).
Proof.
  exists (augmented offline (normalized (days_from 19723 20) raw20)
            (prices_from 100 20) (prices_from 1000 20)).
  split; [vm_compute; reflexivity|]. split; [reflexivity|].
  split; [vm_compute; reflexivity|].
  intros Hspec. destruct (Hspec 19) as [Hlt _]; [simpl; lia|].
  specialize (Hlt eq_refl). lia.
Qed.

Lemma moving_average_window_witness :
  ∃ out ma5 ma20 ma50,
    returned (calculate_basic_metrics offline (Some 3)
                (after_normalize offline raw20_late))
    = Some out
    ∧ column_is out "5d_MA" ma5
    ∧ column_is out "20d_MA" ma20
    ∧ column_is out "50d_MA" ma50
    ∧ ∀ w ma, (w, ma) ∈ [(5, ma5); (20, ma20); (50, ma50)] →
        length ma = length (None :: prices_from 101 19)
        ∧ ∀ i, i < length (None :: prices_from 101 19) →
            (ma !! i = Some None
             ↔ i < leading_missing (None :: prices_from 101 19) + w - 1)
            ∧ (leading_missing (None :: prices_from 101 19) + w - 1 ≤ i →
               ∃ obs, window w i (None :: prices_from 101 19) = Some <$> obs
                      ∧ length obs = w
                      ∧ ma !! i = Some (Some (Qc_sum obs / Qc_of_nat w)%Qc)).
Proof.
  apply (moving_average_window offline (after_normalize offline raw20_late) 3
           (None :: prices_from 101 19) (prices_from 1000 20));
    reflexivity.
Defined.

(** C4 as the specification words it fails on twenty days whose first
    close is missing: [20d_MA] is undefined in row 19 as well. *)
Lemma moving_average_window_counterexample :
  ∃ out, returned (pipeline offline (only raw20_late)) = Some out
         ∧ nrows out = 20
         ∧ column_is out "20d_MA" (replicate 20 None)
         ∧ ¬ spec_undefined_below 19 (replicate 20 None).
Proof.
  exists (augmented offline (normalized (days_from 19723 20) raw20_late)
            (None :: prices_from 101 19) (prices_from 1000 20)).
  split; [vm_compute; reflexivity|]. split; [reflexivity|].
  split; [vm_compute; reflexivity|].
  intros Hspec. destruct (Hspec 19) as [Hlt _]; [simpl; lia|].
  specialize (Hlt eq_refl). lia.
Qed.

Lemma normalize_without_date_witness :
  (process_time_series offline (Some 0) (only no_date)).1 = Raise (KeyError "Date").
Proof. apply (normalize_without_date offline (only no_date) 0); reflexivity. Defined.

(** The provider has no row for the symbol: no frame, one line printed. *)
Example get_stock_data_ZZZZ :
  (get_stock_data no_data "ZZZZ" "1y" "1d" (mkState [] [])).1 = Ok None
  ∧ stdout (get_stock_data no_data "ZZZZ" "1y" "1d" (mkState [] [])).2
    = ["No data found for ZZZZ"].
Proof. split; reflexivity. Qed.

(** An assignment changes the object for whoever holds it: without its
    copy a function would change the frame of its caller. *)
Example setitem_changes_the_object :
  columns (heap (setitem 0 "Month" (Numeric []) (only no_close)).2 !!! 0)
  ≠ columns (heap (only no_close) !!! 0).
Proof. discriminate. Qed.

(** Dates given out of order stay out of order in the index. *)
Example unsorted_dates_stay_unsorted :
  ∃ out, returned (process_time_series offline (Some 0) (only raw_unsorted)) = Some out
         ∧ index out = Datetime [day 19724; day 19723]
         ∧ ¬ index_increasing out.
Proof.
  exists (normalized [day 19724; day 19723] raw_unsorted).
  split; [vm_compute; reflexivity|]. split; [reflexivity|].
  vm_compute. by intros [? _].
Qed.

(** The calendar fields on known days: Monday 2024-01-01, Thursday
    2024-02-29, Friday 1999-12-31, and the last nanosecond of Wednesday
    1969-12-31. *)
Example calendar_fields :
  (dayofweek (19723 * ns_per_day), month (19723 * ns_per_day)) = (0, 1)%Z
  ∧ (dayofweek (19782 * ns_per_day), month (19782 * ns_per_day)) = (3, 2)%Z
  ∧ (dayofweek (10956 * ns_per_day), month (10956 * ns_per_day)) = (4, 12)%Z
  ∧ (dayofweek (-1), month (-1)) = (2, 12)%Z.
Proof. by split_and!. Qed.


Lemma pipeline_defines_all_metrics_witness :
  ∃ out,
    returned (pipeline offline (only raw60)) = Some out
    ∧ nrows out = nrows raw60
    ∧ ∀ name, name ∈ ["Daily_Return"; "Cum_Return"; "Volatility_20d";
                      "Volume_Change"; "5d_MA"; "20d_MA"; "50d_MA"] →
        ∃ s, column_is out name s
             ∧ ∀ i, 50 ≤ i → i < nrows raw60 → ∃ x, s !! i = Some (Some x).
Proof.
  apply (pipeline_defines_all_metrics offline raw60 (Datetime (days_from 19723 60))
           (days_from 19723 60) (price_values 100 60) (price_values 1000 60));
    [reflexivity|split; by_evaluation|reflexivity|reflexivity
    |reflexivity|by_evaluation|reflexivity|by_evaluation].
Defined.

(** The metrics of three days with closes 100, NaN, 102 and volumes 10, 11,
    12: the missing close is filled with 100, the returns are 0 and 2
    percent, and the volume grows by 10 and by 100/11 percent. *)
Example metrics_of_three_days :
  let out := returned (pipeline offline (only raw3)) in
  fractions "Close" out = [Some 100; Some 100; Some 102]%Q
  ∧ fractions "Daily_Return" out = [None; Some 0; Some 2]%Q
  ∧ fractions "Cum_Return" out = [None; Some 0; Some 2]%Q
  ∧ fractions "Volume_Change" out = [None; Some 10; Some (100 # 11)]%Q
  ∧ fractions "DayOfWeek" out = [Some 0; Some 1; Some 2]%Q
  ∧ fractions "Month" out = [Some 1; Some 1; Some 1]%Q.
Proof. by vm_compute. Qed.

(** The moving averages of twenty days with closes 100 to 119: the first
    [5d_MA] is 102 in row 4, the only [20d_MA] is 219/2 in row 19. *)
Example moving_averages_of_twenty_days :
  let out := returned (pipeline offline (only raw20)) in
  take 6 (fractions "5d_MA" out) = [None; None; None; None; Some 102; Some 103]%Q
  ∧ drop 18 (fractions "20d_MA" out) = [None; Some (219 # 2)]%Q
  ∧ fractions "50d_MA" out = replicate 20 None.
Proof. by vm_compute. Qed.

(** * Further properties of the code *)

(** ** [Volume_Change] *)

(** For every frame with rows whose [Volume] is forward filled,
    [calculate_basic_metrics] returns a frame whose [Volume_Change] is
    undefined in row 0 and, in a row [i > 0] with the volumes [vi] of the
    row and [vp] of the row before, [vp] not zero, is the number
    [(vi / vp - 1) * 100]; in a row where one of the two volumes is missing
    it is undefined. *)
Theorem volume_change_formula env st r close volume :
  is_empty (heap st !!! r) = false →
  well_formed (heap st !!! r) →
  column_is (heap st !!! r) "Close" close →
  column_is (heap st !!! r) "Volume" volume →
  forward_filled volume →
  ∃ out vc,
    returned (calculate_basic_metrics env (Some r) st) = Some out
    ∧ column_is out "Volume_Change" vc
    ∧ length vc = length volume
    ∧ vc !! 0 = Some None
    ∧ (∀ i vi vp, 0 < i →
         volume !! i = Some (Some vi) → volume !! (i - 1) = Some (Some vp) →
         vp ≠ 0%Qc →
         vc !! i = Some (Some ((vi / vp - 1) * Qc_of_Z 100)%Qc))
    ∧ (∀ i, 0 < i → i < length volume →
         volume !! i = Some None ∨ volume !! (i - 1) = Some None →
         vc !! i = Some None).
Proof.
  intros He Hwf Hc Hv Hf.
  exists (augmented env (heap st !!! r) close volume), (daily_return env volume).
  split; [by apply returned_calculate_basic_metrics|].
  split; [apply augmented_columns|].
  split; [apply length_daily_return|].
  split; [apply daily_return_lookup_0; [done|by eapply well_formed_length]|].
  split.
  - intros [|i] vi vp Hi Hvi Hvp Hnz; [lia|].
    rewrite Nat.sub_1_r in Hvp. simpl in Hvp. by apply daily_return_present.
  - intros [|i] Hi Hl Hn; [lia|].
    rewrite Nat.sub_1_r in Hn. simpl in Hn. by apply daily_return_absent.
Qed.

(** ** Forward fill, row by row *)

Section FillRows.

Context {A : Type}.
Implicit Types (l : list (option A)) (last : option A).

(** A present value stays. *)
Lemma ffill_from_present last l i x :
  l !! i = Some (Some x) → ffill_from last l !! i = Some (Some x).
Proof.
  revert last i; induction l as [|y l IH]; intros last i; [by destruct i|].
  destruct i as [|i]; simpl; [by intros [= ->]|]. apply IH.
Qed.

(** A missing value takes the filled value of the row before. *)
Lemma ffill_from_missing last l i :
  l !! S i = Some None → ffill_from last l !! S i = ffill_from last l !! i.
Proof.
  revert last i; induction l as [|y l IH]; intros last i; [done|].
  destruct i as [|i]; simpl.
  - destruct l as [|[z|] l]; simpl; [done..|]. done.
  - apply IH.
Qed.

(** A value is carried over a run of missing values. *)
Lemma ffill_carries l j n x :
  l !! j = Some (Some x) →
  (∀ k, j < k ≤ j + n → l !! k = Some None) →
  ffill l !! (j + n) = Some (Some x).
Proof.
  intros Hj Hrun. induction n as [|n IH].
  - rewrite Nat.add_0_r. by apply ffill_from_present.
  - replace (j + S n) with (S (j + n)) by lia. unfold ffill.
    rewrite ffill_from_missing by (apply Hrun; lia).
    apply IH. intros k Hk. apply Hrun. lia.
Qed.

(** Before the first value nothing is filled. *)
Lemma ffill_leading l i :
  i < leading_missing l → ffill l !! i = Some None.
Proof.
  unfold ffill. revert i; induction l as [|[x|] l IH]; intros i Hi; simpl in *;
    [lia..|].
  destruct i as [|i]; [done|]. simpl. apply IH. lia.
Qed.

End FillRows.

(** For every raw frame with rows and dates, a number column of the raw
    frame other than [Date], [DayOfWeek] and [Month] is a column of the
    returned frame in which every present value stays, every missing value
    takes the value of the nearest row before it that has one, and the
    rows before the first value stay missing. *)
Theorem normalize_fills_forward env st r c ts name s :
  is_empty (heap st !!! r) = false →
  lookup_col "Date" (columns (heap st !!! r)) = Some c →
  to_datetime env c = Ok (Datetime ts) →
  name ≠ "Date" → name ≠ "DayOfWeek" → name ≠ "Month" →
  column_is (heap st !!! r) name s →
  ∃ out s',
    returned (process_time_series env (Some r) st) = Some out
    ∧ column_is out name s'
    ∧ length s' = length s
    ∧ (∀ i x, s !! i = Some (Some x) → s' !! i = Some (Some x))
    ∧ (∀ j n x, s !! j = Some (Some x) →
                (∀ k, j < k ≤ j + n → s !! k = Some None) →
                s' !! (j + n) = Some (Some x))
    ∧ (∀ i, i < leading_missing s → s' !! i = Some None).
Proof.
  intros He Hc Hts H1 H2 H3 Hs.
  exists (normalized ts (heap st !!! r)), (ffill s).
  split; [by eapply returned_process_time_series|].
  split; [by apply normalized_column|].
  split; [apply length_ffill_from|].
  split_and!.
  - intros i x. apply ffill_from_present.
  - intros j n x. apply ffill_carries.
  - intros i. apply ffill_leading.
Qed.

(** ** No look-ahead *)

Lemma ffill_from_take {A : Type} (last : option A) n l :
  ffill_from last (take n l) = take n (ffill_from last l).
Proof.
  revert last n; induction l as [|x l IH]; intros last n; [by destruct n|].
  destruct n as [|n]; simpl; [done|]. by rewrite IH.
Qed.

Lemma shift_take n s : shift (take n s) = take n (shift s).
Proof.
  unfold shift. rewrite length_take, take_take.
  destruct (n `min` length s) as [|k] eqn:Hk; [done|].
  rewrite !firstn_cons, take_take. do 2 f_equal. lia.
Qed.

Lemma pct_change_with_take m n s :
  pct_change_with m (take n s) = take n (pct_change_with m s).
Proof.
  unfold pct_change_with, series_sub_scalar, series_div.
  rewrite <-fmap_take, zip_with_take. f_equal.
  destruct m; unfold ffill; by rewrite ?ffill_from_take, shift_take.
Qed.

Lemma np_cumprod_from_take acc n l :
  np_cumprod_from acc (take n l) = take n (np_cumprod_from acc l).
Proof.
  revert acc n; induction l as [|x l IH]; intros acc n; [by destruct n|].
  destruct n as [|n]; simpl; [done|]. by rewrite IH.
Qed.

Lemma cumprod_take n s : cumprod (take n s) = take n (cumprod s).
Proof.
  unfold cumprod. rewrite zip_with_take. f_equal. rewrite fmap_take.
  destruct (default 1%Qc <$> s) as [|x l]; [by destruct n|].
  destruct n as [|n]; simpl; [done|]. by rewrite np_cumprod_from_take.
Qed.

Lemma rolling_apply_take w minp f n (s : series) :
  rolling_apply w minp f (take n s) = take n (rolling_apply w minp f s).
Proof.
  apply list_eq. intros i. unfold rolling_apply.
  rewrite lookup_take, !list_lookup_imap, lookup_take.
  destruct (decide (i < n)) as [Hi|Hi]; [|done].
  unfold window. rewrite take_take. by replace (S i `min` n) with (S i) by lia.
Qed.

Lemma daily_return_take env n s :
  daily_return env (take n s) = take n (daily_return env s).
Proof.
  unfold daily_return, series_mul_scalar.
  by rewrite pct_change_with_take, fmap_take.
Qed.

Lemma cum_return_take env n s :
  cum_return env (take n s) = take n (cum_return env s).
Proof.
  unfold cum_return, series_mul_scalar, series_sub_scalar, scalar_add_series,
    series_div_scalar.
  by rewrite daily_return_take, !fmap_take, cumprod_take, !fmap_take.
Qed.

Lemma derived_columns_take env n close volume :
  derived_columns env (take n close) (take n volume)
  = prod_map id (λ c, match c with
                      | Numeric s => Numeric (take n s)
                      | _ => c
                      end) <$> derived_columns env close volume.
Proof.
  unfold derived_columns, volatility_20d, moving_average. simpl.
  by rewrite !daily_return_take, cum_return_take, !rolling_apply_take.
Qed.

Lemma augmented_derived env df close volume name c :
  (name, c) ∈ derived_columns env close volume →
  lookup_col name (columns (augmented env df close volume)) = Some c.
Proof.
  unfold derived_columns. rewrite !elem_of_cons, elem_of_nil.
  intros Hin. destruct_or!; simplify_eq; apply augmented_columns.
Qed.

(** The metrics never look ahead: the rows [0..n-1] of every derived column
    are what [calculate_basic_metrics] derives from the rows [0..n-1] of
    [Close] and [Volume] alone.  Given a frame and a second one whose
    [Close] and [Volume] are the first [n] rows of the first's, every
    derived column of the second is the first [n] rows of the first's. *)
Theorem metrics_ignore_later_rows env st r close volume st' r' n :
  is_empty (heap st !!! r) = false →
  column_is (heap st !!! r) "Close" close →
  column_is (heap st !!! r) "Volume" volume →
  is_empty (heap st' !!! r') = false →
  column_is (heap st' !!! r') "Close" (take n close) →
  column_is (heap st' !!! r') "Volume" (take n volume) →
  ∃ out out',
    returned (calculate_basic_metrics env (Some r) st) = Some out
    ∧ returned (calculate_basic_metrics env (Some r') st') = Some out'
    ∧ ∀ name, name ∈ derived_names →
        ∃ s, column_is out name s ∧ column_is out' name (take n s).
Proof.
  intros He Hc Hv He' Hc' Hv'.
  eexists _, _. split; [by apply returned_calculate_basic_metrics|].
  split; [by apply returned_calculate_basic_metrics|].
  intros name Hin. unfold derived_names in Hin.
  rewrite !elem_of_cons, elem_of_nil in Hin.
  unfold column_is.
  destruct_or!; simplify_eq; eexists;
    (split; [apply augmented_columns|]);
    unfold volatility_20d, moving_average;
    rewrite <-?daily_return_take, <-?cum_return_take, <-?rolling_apply_take,
      <-?daily_return_take;
    apply augmented_columns.
Qed.

(** ** The frame [calculate_basic_metrics] returns *)

Lemma assign_col_fresh name c cols :
  name ∉ cols.*1 → assign_col name c cols = cols ++ [(name, c)].
Proof.
  induction cols as [|[n c0] cols IH]; simpl; [done|].
  rewrite not_elem_of_cons. intros [Hne Hnin].
  rewrite decide_False by done. by rewrite IH.
Qed.

Lemma assign_col_same name c cols :
  lookup_col name cols = Some c → assign_col name c cols = cols.
Proof.
  induction cols as [|[n c0] cols IH]; simpl; [done|].
  case_decide; [by intros [= ->]|]. intros Hc. by rewrite IH.
Qed.

(** On a frame that has none of the derived names, the seven columns are
    appended in the order of the assignments. *)
Lemma augmented_appends env df close volume :
  (∀ n, n ∈ derived_names → n ∉ names df) →
  columns (augmented env df close volume)
  = columns df ++ derived_columns env close volume.
Proof.
  intros Hfresh. unfold augmented, derived_columns. simpl.
  assert (∀ n, n ∈ derived_names → n ∉ (columns df).*1) as H0 by done.
  repeat (rewrite assign_col_fresh;
          [|rewrite ?names_assign; intros Hin; destruct_or?; try discriminate;
            revert Hin; apply H0; by_evaluation]).
  by rewrite <-!app_assoc.
Qed.

Lemma augmented_other_columns env df close volume name :
  name ∉ derived_names →
  lookup_col name (columns (augmented env df close volume))
  = lookup_col name (columns df).
Proof.
  unfold derived_names. rewrite !not_elem_of_cons. intros Hne.
  unfold augmented. simpl. by rewrite !lookup_assign_ne by tauto.
Qed.

Lemma augmented_names env df close volume n :
  n ∈ names (augmented env df close volume) ↔ n ∈ names df ∨ n ∈ derived_names.
Proof.
  unfold names, augmented, derived_names. simpl.
  rewrite !names_assign, !elem_of_cons, elem_of_nil. tauto.
Qed.

(** For every frame with rows and number columns [Close] and [Volume],
    [calculate_basic_metrics] returns a frame with the index, the index
    name and the row count of its argument, in which every column whose
    name is not one of the seven derived names is as it was, and whose
    names are those of the argument and the seven; when the argument has
    none of the seven, they are appended in the order of the assignments;
    and the frame is well formed when the argument is. *)
Theorem augment_keeps_frame env st r close volume :
  is_empty (heap st !!! r) = false →
  column_is (heap st !!! r) "Close" close →
  column_is (heap st !!! r) "Volume" volume →
  ∃ out,
    returned (calculate_basic_metrics env (Some r) st) = Some out
    ∧ index out = index (heap st !!! r)
    ∧ index_name out = index_name (heap st !!! r)
    ∧ nrows out = nrows (heap st !!! r)
    ∧ (∀ name, name ∉ derived_names →
         lookup_col name (columns out)
         = lookup_col name (columns (heap st !!! r)))
    ∧ (∀ n, n ∈ names out ↔ n ∈ names (heap st !!! r) ∨ n ∈ derived_names)
    ∧ ((∀ n, n ∈ derived_names → n ∉ names (heap st !!! r)) →
       columns out
       = columns (heap st !!! r) ++ derived_columns env close volume)
    ∧ (well_formed (heap st !!! r) → well_formed out).
Proof.
  intros He Hc Hv. exists (augmented env (heap st !!! r) close volume).
  split; [by apply returned_calculate_basic_metrics|].
  split_and!; [done..| | | |].
  - intros name. apply augmented_other_columns.
  - apply augmented_names.
  - apply augmented_appends.
  - intros Hwf. by apply augmented_well_formed.
Qed.

Lemma augmented_nonempty env df close volume :
  is_empty df = false → is_empty (augmented env df close volume) = false.
Proof.
  unfold is_empty, augmented, nrows. simpl. intros He.
  destruct (col_length (index df)); [done|].
  match goal with |- match ?l with _ => _ end = _ =>
    pose proof (assign_col_nonempty "50d_MA" (Numeric (moving_average 50 close))
      (assign_col "20d_MA" (Numeric (moving_average 20 close))
      (assign_col "5d_MA" (Numeric (moving_average 5 close))
      (assign_col "Volume_Change" (Numeric (daily_return env volume))
      (assign_col "Volatility_20d" (Numeric (volatility_20d env close))
      (assign_col "Cum_Return" (Numeric (cum_return env close))
      (assign_col "Daily_Return" (Numeric (daily_return env close))
         (columns df)))))))); by destruct l
  end.
Qed.

Lemma augmented_idemp env df close volume :
  column_is df "Close" close → column_is df "Volume" volume →
  augmented env (augmented env df close volume) close volume
  = augmented env df close volume.
Proof.
  intros Hc Hv.
  destruct (augmented_columns env df close volume)
    as (Hdr & Hcum & Hvol & Hvc & H5 & H20 & H50).
  unfold column_is in *.
  unfold augmented at 1. simpl.
  rewrite (assign_col_same "Daily_Return") by done.
  rewrite (assign_col_same "Cum_Return") by done.
  rewrite (assign_col_same "Volatility_20d") by done.
  rewrite (assign_col_same "Volume_Change") by done.
  rewrite (assign_col_same "5d_MA") by done.
  rewrite (assign_col_same "20d_MA") by done.
  rewrite (assign_col_same "50d_MA") by done.
  done.
Qed.

(** [calculate_basic_metrics] is idempotent: applied to the frame it
    returned, it returns a new frame with the same index and columns. *)
Theorem augment_idempotent env st r close volume :
  is_empty (heap st !!! r) = false →
  column_is (heap st !!! r) "Close" close →
  column_is (heap st !!! r) "Volume" volume →
  ∃ r1 st1 r2 st2,
    calculate_basic_metrics env (Some r) st = (Ok (Some r1), st1)
    ∧ calculate_basic_metrics env (Some r1) st1 = (Ok (Some r2), st2)
    ∧ r2 ≠ r1
    ∧ heap st2 !!! r2 = heap st1 !!! r1.
Proof.
  intros He Hc Hv.
  eexists _, _, _, _.
  split; [by apply calculate_basic_metrics_run|].
  set (out := augmented env (heap st !!! r) close volume).
  assert ((heap st ++ [out]) !!! length (heap st) = out) as Hout
    by by rewrite list_lookup_total_middle.
  split.
  - apply (calculate_basic_metrics_run env _ _ close volume); simpl; rewrite Hout.
    + by apply augmented_nonempty.
    + unfold column_is, out. rewrite augmented_other_columns; [done|by_evaluation].
    + unfold column_is, out. rewrite augmented_other_columns; [done|by_evaluation].
  - split; [cbn [heap]; rewrite length_app; simpl; lia|].
    cbn [heap]. rewrite (list_lookup_total_middle (heap st ++ [out])) by done.
    fold out. rewrite Hout. by apply augmented_idemp.
Qed.

(** ** The calendar columns and a second normalization *)



Lemma lookup_col_drop name cols : lookup_col name (drop_col name cols) = None.
Proof.
  unfold drop_col. induction cols as [|[n c] cols IH]; [done|].
  destruct (decide (n = name)) as [->|Hn].
  - by rewrite filter_cons_False by (simpl; naive_solver).
  - rewrite filter_cons_True by done. simpl. by rewrite decide_False.
Qed.

Lemma normalized_no_date ts df :
  lookup_col "Date" (columns (normalized ts df)) = None.
Proof.
  unfold normalized. simpl.
  by rewrite !lookup_assign_ne, lookup_col_ffill, lookup_col_drop by done.
Qed.

(** The run of [process_time_series] on a frame with rows and no [Date]
    column: the copy is made, and [set_index] raises. *)
Lemma process_time_series_raises env st r :
  is_empty (heap st !!! r) = false →
  lookup_col "Date" (columns (heap st !!! r)) = None →
  process_time_series env (Some r) st
  = (Raise (KeyError "Date"), mkState (heap st ++ [heap st !!! r]) (stdout st)).
Proof.
  intros He Hc. unfold process_time_series.
  step df_empty_run. rewrite He. step df_copy_run. step has_column_last.
  rewrite bool_decide_eq_false_2; last first.
  { intros [c Hin]%lookup_col_elem_of. congruence. }
  erewrite bind_ok; [|done].
  by erewrite bind_raise; [|by apply set_index_last_missing].
Qed.

(** [process_time_series] cannot be applied to the frame it returned: the
    dates are the index of that frame and no column of it, so the second
    call raises [KeyError]. *)
Theorem normalize_twice_raises env st r c ts :
  is_empty (heap st !!! r) = false →
  lookup_col "Date" (columns (heap st !!! r)) = Some c →
  to_datetime env c = Ok (Datetime ts) →
  well_formed (heap st !!! r) →
  ∃ r1 st1,
    process_time_series env (Some r) st = (Ok (Some r1), st1)
    ∧ (process_time_series env (Some r1) st1).1 = Raise (KeyError "Date").
Proof.
  intros He Hc Hts Hwf.
  assert (0 < length ts) as Hlen.
  { destruct (to_datetime_Ok _ _ _ Hts) as (ts' & [= <-] & ->).
    rewrite (well_formed_col_length _ "Date" c Hwf Hc).
    by apply is_empty_false_nrows. }
  destruct (process_time_series_run env st r c ts He Hc Hts) as (df1 & df2 & Hrun).
  eexists _, _. split; [exact Hrun|].
  assert ((heap st ++ [df1; df2; normalized ts (heap st !!! r)])
            !!! S (S (length (heap st))) = normalized ts (heap st !!! r)) as Hout.
  { rewrite lookup_total_app_r by lia.
    by replace (S (S (length (heap st))) - length (heap st)) with 2 by lia. }
  rewrite process_time_series_raises; [done| |]; simpl; rewrite Hout.
  - by apply normalized_nonempty.
  - apply normalized_no_date.
Qed.

(** ** What the two transformations print and return *)

Lemma prints_nothing_ret {A : Type} (a : A) : prints_nothing (mret a).
Proof. done. Qed.

Lemma prints_nothing_bind {A B : Type} (m : M A) (f : A → M B) :
  prints_nothing m → (∀ a, prints_nothing (f a)) → prints_nothing (m ≫= f).
Proof.
  intros Hm Hf st. specialize (Hm st). unfold mbind, M_bind.
  destruct (m st) as [[a|e] st']; simpl in *; [|done]. by rewrite Hf.
Qed.

Lemma prints_nothing_getitem r name : prints_nothing (getitem r name).
Proof. intros st. unfold getitem, mbind, M_bind. simpl. by case_match. Qed.

Lemma prints_nothing_set_index r name : prints_nothing (set_index r name).
Proof. intros st. unfold set_index, mbind, M_bind. simpl. by case_match. Qed.

Lemma prints_nothing_index_field field r : prints_nothing (index_field field r).
Proof. intros st. unfold index_field, mbind, M_bind. simpl. by case_match. Qed.

Lemma prints_nothing_numeric c : prints_nothing (numeric c).
Proof. intros st. by destruct c. Qed.

Lemma prints_nothing_pct_change env c : prints_nothing (pct_change env c).
Proof. intros st. by destruct c. Qed.

Lemma prints_nothing_rolling w f c : prints_nothing (rolling w f c).
Proof. intros st. by destruct c. Qed.

Create HintDb quiet.
#[local] Hint Resolve prints_nothing_getitem prints_nothing_set_index
  prints_nothing_index_field prints_nothing_numeric prints_nothing_pct_change
  prints_nothing_rolling : quiet.
#[local] Hint Extern 1 (prints_nothing (df_empty _)) => done : quiet.
#[local] Hint Extern 1 (prints_nothing (df_copy _)) => done : quiet.
#[local] Hint Extern 1 (prints_nothing (df_ffill _)) => done : quiet.
#[local] Hint Extern 1 (prints_nothing (has_column _ _)) => done : quiet.
#[local] Hint Extern 1 (prints_nothing (setitem _ _ _)) => done : quiet.
#[local] Hint Extern 1 (prints_nothing (from_result _)) => done : quiet.
#[local] Hint Extern 1 (prints_nothing (raise _)) => done : quiet.

Ltac quiet_body :=
  repeat match goal with
    | |- prints_nothing (mret _) => apply prints_nothing_ret
    | |- prints_nothing (_ ≫= _) => apply prints_nothing_bind; [|intros ?]
    | |- prints_nothing (if ?b then _ else _) => destruct b
    | |- prints_nothing _ => solve [eauto with quiet]
    end.

Lemma prints_nothing_process_time_series env df :
  prints_nothing (process_time_series env df).
Proof. unfold process_time_series. destruct df as [r|]; quiet_body. Qed.

Lemma prints_nothing_calculate_basic_metrics env df :
  prints_nothing (calculate_basic_metrics env df).
Proof. unfold calculate_basic_metrics. destruct df as [r|]; quiet_body. Qed.

(** As [keeps_body], for a body whose result is to be a new reference. *)
Ltac keeps_fresh :=
  repeat match goal with
    | |- keeps _ (mret None) _ => apply keeps_ret; by intros ? [=]
    | |- keeps _ (mret (Some _)) _ => apply keeps_ret; by intros ? [= <-]
    | |- keeps _ (_ ≫= _) _ =>
        first [ eapply keeps_bind; [solve [eauto with keeps]|intros ? ?]
              | eapply (keeps_bind _ _ _ (λ _, True)); [keeps_body|intros ? _] ]
    | |- keeps _ (if ?b then _ else _) _ => destruct b
    end.

Lemma fresh_process_time_series env n df :
  keeps n (process_time_series env df) (λ res, ∀ r', res = Some r' → n ≤ r').
Proof. unfold process_time_series. destruct df as [r|]; keeps_fresh. Qed.

Lemma fresh_calculate_basic_metrics env n df :
  keeps n (calculate_basic_metrics env df) (λ res, ∀ r', res = Some r' → n ≤ r').
Proof. unfold calculate_basic_metrics. destruct df as [r|]; keeps_fresh. Qed.

(** Whatever they are given, and whether they return or raise,
    [process_time_series] and [calculate_basic_metrics] print nothing; and
    a frame they return is a new object, none of those that existed before
    the call, the argument among them. *)
Theorem transforms_print_nothing env df st :
  stdout (process_time_series env df st).2 = stdout st
  ∧ stdout (calculate_basic_metrics env df st).2 = stdout st
  ∧ (∀ r', (process_time_series env df st).1 = Ok (Some r') →
           length (heap st) ≤ r')
  ∧ (∀ r', (calculate_basic_metrics env df st).1 = Ok (Some r') →
           length (heap st) ≤ r').
Proof.
  split; [apply prints_nothing_process_time_series|].
  split; [apply prints_nothing_calculate_basic_metrics|].
  split.
  - destruct (fresh_process_time_series env (length (heap st)) df st)
      as (_ & _ & Hq); [done|]. intros r' Hr. by eapply Hq.
  - destruct (fresh_calculate_basic_metrics env (length (heap st)) df st)
      as (_ & _ & Hq); [done|]. intros r' Hr. by eapply Hq.
Qed.

(** ** [get_stock_data] and what it hands to [process_time_series] *)

Lemma length_range_index n : col_length (range_index n) = n.
Proof. unfold range_index. simpl. by rewrite length_fmap, length_seq. Qed.

Lemma is_empty_reset n name idx cols :
  0 < n → is_empty (mkDataFrame None (range_index n) ((name, idx) :: cols)) = false.
Proof.
  intros Hn. unfold is_empty, nrows. cbn [index columns].
  rewrite length_range_index. by destruct n; [lia|].
Qed.

Lemma reset_index_Ok df df' :
  reset_index df = Ok df' →
  ∃ name, (name ∉ names df)
          ∧ name = default (if bool_decide ("index" ∈ names df)
                            then "level_0" else "index") (index_name df)
          ∧ df' = mkDataFrame None (range_index (nrows df))
                    ((name, index df) :: columns df).
Proof.
  unfold reset_index. intros Hr. case_bool_decide as Hin; [done|].
  simplify_eq. eexists. split; [exact Hin|]. split; [|done].
  by destruct (index_name df).
Qed.

(** [get_stock_data] never raises.  It returns [None] with exactly one line
    printed, or a new frame with nothing printed; the frame has rows, a
    fresh [RangeIndex], the provider's index as its first column under the
    name of that index, and the provider's columns after it.  No object
    that existed before is changed. *)
Theorem get_stock_data_never_raises env symbol period interval st :
  let run := get_stock_data env symbol period interval st in
  take (length (heap st)) (heap run.2) = heap st
  ∧ match run.1 with
    | Raise _ => False
    | Ok None => ∃ line, stdout run.2 = stdout st ++ [line]
    | Ok (Some r) =>
        stdout run.2 = stdout st
        ∧ r = length (heap st)
        ∧ is_empty (heap run.2 !!! r) = false
        ∧ ∃ df name,
            history env symbol period interval = Ok df
            ∧ (name ∉ names df)
            ∧ heap run.2 !!! r
              = mkDataFrame None (range_index (nrows df))
                  ((name, index df) :: columns df)
    end.
Proof.
  cbv zeta. unfold get_stock_data, try_except.
  destruct (history env symbol period interval) as [df|e]; last first.
  { erewrite bind_raise; [|done].
    simpl. split; [by rewrite firstn_all|by eexists]. }
  erewrite bind_ok; [|done].
  destruct (reset_index df) as [df'|e] eqn:Hr; last first.
  { erewrite bind_raise; [|done]. simpl. split; [by rewrite firstn_all|by eexists]. }
  erewrite bind_ok; [|done]. erewrite bind_ok; [|done]. simpl.
  erewrite bind_ok; [|apply df_empty_last].
  destruct (is_empty df') eqn:He; simpl.
  - split; [by rewrite take_app_le, firstn_all by done|by eexists].
  - split; [by rewrite take_app_le, firstn_all by done|].
    rewrite list_lookup_total_middle by done.
    destruct (reset_index_Ok _ _ Hr) as (name & Hn & _ & ->).
    split_and!; [done..|]. by exists df, name.
Qed.

Lemma drop_col_fresh name cols : name ∉ cols.*1 → drop_col name cols = cols.
Proof.
  unfold drop_col. induction cols as [|[n c] cols IH]; simpl; [done|].
  rewrite not_elem_of_cons. intros [Hne Hnin].
  rewrite filter_cons_True by (simpl; congruence). by rewrite IH.
Qed.

Lemma drop_col_head name c cols :
  drop_col name ((name, c) :: cols) = drop_col name cols.
Proof. unfold drop_col. by rewrite filter_cons_False by (simpl; naive_solver). Qed.

(** The run of [get_stock_data] when the provider answers with rows. *)
Lemma get_stock_data_run env symbol period interval st df df' :
  history env symbol period interval = Ok df →
  reset_index df = Ok df' → is_empty df' = false →
  get_stock_data env symbol period interval st
  = (Ok (Some (length (heap st))), mkState (heap st ++ [df']) (stdout st)).
Proof.
  intros Hh Hr He. unfold get_stock_data, try_except.
  erewrite bind_ok; [|unfold from_result; by rewrite Hh].
  erewrite bind_ok; [|unfold from_result; by rewrite Hr].
  erewrite bind_ok; [|done]. simpl.
  erewrite bind_ok; [|apply df_empty_last]. by rewrite He.
Qed.

(** When the provider answers with rows indexed by timestamps under the
    name [Date], [get_stock_data] followed by [process_time_series] gives
    back the provider's index and index name and its row count, with every
    column of the provider forward filled; the only other columns are
    [DayOfWeek] and [Month]. *)
Theorem fetch_then_normalize env symbol period interval st df ts :
  history env symbol period interval = Ok df →
  index_name df = Some "Date" → index df = Datetime ts →
  "Date" ∉ names df → 0 < nrows df →
  ∃ r st1 out,
    get_stock_data env symbol period interval st = (Ok (Some r), st1)
    ∧ returned (process_time_series env (Some r) st1) = Some out
    ∧ index out = index df
    ∧ index_name out = index_name df
    ∧ nrows out = nrows df
    ∧ ∀ name, name ≠ "DayOfWeek" → name ≠ "Month" →
        lookup_col name (columns out)
        = (ffill_column <$> lookup_col name (columns df)).
Proof.
  intros Hh Hname Hidx Hfresh Hrows.
  set (df' := mkDataFrame None (range_index (nrows df))
                (("Date", index df) :: columns df)).
  assert (reset_index df = Ok df') as Hr.
  { unfold reset_index. rewrite Hname. by rewrite bool_decide_eq_false_2. }
  assert (is_empty df' = false) as He by by apply is_empty_reset.
  assert (lookup_col "Date" (columns df') = Some (Datetime ts)) as Hc.
  { unfold df'. cbn [columns lookup_col]. rewrite decide_True by done.
    by rewrite Hidx. }
  exists (length (heap st)), (mkState (heap st ++ [df']) (stdout st)),
    (normalized ts df').
  split; [by eapply get_stock_data_run|].
  assert ((heap st ++ [df']) !!! length (heap st) = df') as Hlast
    by by rewrite list_lookup_total_middle.
  split.
  { rewrite (returned_process_time_series env
               (mkState (heap st ++ [df']) (stdout st)) (length (heap st))
               (Datetime ts) ts);
      cbn [heap]; rewrite ?Hlast; done. }
  split; [by rewrite Hidx|]. split; [by rewrite Hname|].
  split; [unfold nrows; by rewrite Hidx|].
  intros name H1 H2. unfold normalized, df'. cbn [columns].
  rewrite !lookup_assign_ne, lookup_col_ffill by done.
  by rewrite drop_col_head, drop_col_fresh.
Qed.

(** When the provider answers with rows under an index that is not named
    [Date], as for the intervals shorter than a day, and with no [Date]
    column, [get_stock_data] returns the frame and [process_time_series]
    raises [KeyError] on it. *)
Theorem fetch_then_normalize_needs_date env symbol period interval st df df' :
  history env symbol period interval = Ok df →
  reset_index df = Ok df' →
  index_name df ≠ Some "Date" → "Date" ∉ names df → 0 < nrows df →
  ∃ r st1,
    get_stock_data env symbol period interval st = (Ok (Some r), st1)
    ∧ (process_time_series env (Some r) st1).1 = Raise (KeyError "Date").
Proof.
  intros Hh Hr Hname Hfresh Hrows.
  destruct (reset_index_Ok _ _ Hr) as (name & Hn & Hdef & ->).
  set (df' := mkDataFrame None (range_index (nrows df))
                ((name, index df) :: columns df)) in *.
  assert (is_empty df' = false) as He by by apply is_empty_reset.
  eexists _, _. split; [by eapply get_stock_data_run|].
  assert ((heap st ++ [df']) !!! length (heap st) = df') as Hlast
    by by rewrite list_lookup_total_middle.
  assert (name ≠ "Date") as Hne.
  { intros ->. destruct (index_name df) as [n|]; simpl in Hdef; [by subst|].
    by case_bool_decide. }
  rewrite process_time_series_raises; [done| |]; cbn [heap]; rewrite Hlast; [done|].
  unfold df'. cbn [columns lookup_col]. rewrite decide_False by done.
  destruct (lookup_col "Date" (columns df)) eqn:Hc; [|done].
  destruct Hfresh. apply lookup_col_elem_of. by eexists.
Qed.

(** ** Normalized frames are well formed *)

(** For every well-formed raw frame with rows whose [Date] column
    [pd.to_datetime] accepts, the frame [process_time_series] returns is
    well formed and has rows, so that [calculate_basic_metrics] does not
    take it for an absent input. *)
Theorem normalize_keeps_well_formed env st r c d :
  is_empty (heap st !!! r) = false →
  well_formed (heap st !!! r) →
  lookup_col "Date" (columns (heap st !!! r)) = Some c →
  to_datetime env c = Ok d →
  ∃ out, returned (process_time_series env (Some r) st) = Some out
         ∧ well_formed out
         ∧ is_empty out = false.
Proof.
  intros He Hwf Hc Hd.
  destruct (to_datetime_Ok _ _ _ Hd) as (ts & -> & Hts).
  pose proof (well_formed_col_length _ _ _ Hwf Hc) as Hlen.
  pose proof (is_empty_false_nrows _ He) as Hrows.
  exists (normalized ts (heap st !!! r)).
  split; [by eapply returned_process_time_series|]. split.
  - apply normalized_well_formed; [done|lia].
  - apply normalized_nonempty. lia.
Qed.

(** ** The further properties on the example frames *)

Lemma volume_change_formula_witness :
  ∃ out vc,
    returned (calculate_basic_metrics offline (Some 3) (after_normalize offline raw3))
    = Some out
    ∧ column_is out "Volume_Change" vc
    ∧ length vc = length (prices_from 10 3)
    ∧ vc !! 0 = Some None
    ∧ (∀ i vi vp, 0 < i →
         prices_from 10 3 !! i = Some (Some vi) →
         prices_from 10 3 !! (i - 1) = Some (Some vp) →
         vp ≠ 0%Qc →
         vc !! i = Some (Some ((vi / vp - 1) * Qc_of_Z 100)%Qc))
    ∧ (∀ i, 0 < i → i < length (prices_from 10 3) →
         prices_from 10 3 !! i = Some None ∨ prices_from 10 3 !! (i - 1) = Some None →
         vc !! i = Some None).
Proof.
  apply (volume_change_formula offline (after_normalize offline raw3) 3
           filled3 (prices_from 10 3));
    [reflexivity|split; by_evaluation|reflexivity|reflexivity|reflexivity].
Defined.

Lemma normalize_fills_forward_witness :
  ∃ out s',
    returned (process_time_series offline (Some 0) (only raw3)) = Some out
    ∧ column_is out "Close" s'
    ∧ length s' = length [num 100; None; num 102]
    ∧ (∀ i x, [num 100; None; num 102] !! i = Some (Some x) →
              s' !! i = Some (Some x))
    ∧ (∀ j n x, [num 100; None; num 102] !! j = Some (Some x) →
                (∀ k, j < k ≤ j + n → [num 100; None; num 102] !! k = Some None) →
                s' !! (j + n) = Some (Some x))
    ∧ (∀ i, i < leading_missing [num 100; None; num 102] → s' !! i = Some None).
Proof.
  apply (normalize_fills_forward offline (only raw3) 0
           (Datetime (days_from 19723 3)) (days_from 19723 3) "Close"
           [num 100; None; num 102]);
    [reflexivity|reflexivity|reflexivity|discriminate|discriminate|discriminate
    |reflexivity].
Defined.

Lemma metrics_ignore_later_rows_witness :
  ∃ out out',
    returned (calculate_basic_metrics offline (Some 0) (only raw20)) = Some out
    ∧ returned (calculate_basic_metrics offline (Some 0) (only raw5)) = Some out'
    ∧ ∀ name, name ∈ derived_names →
        ∃ s, column_is out name s ∧ column_is out' name (take 5 s).
Proof.
  apply (metrics_ignore_later_rows offline (only raw20) 0
           (prices_from 100 20) (prices_from 1000 20) (only raw5) 0 5);
    reflexivity.
Defined.

Lemma augment_keeps_frame_witness :
  ∃ out,
    returned (calculate_basic_metrics offline (Some 0) (only raw3)) = Some out
    ∧ index out = index (heap (only raw3) !!! 0)
    ∧ index_name out = index_name (heap (only raw3) !!! 0)
    ∧ nrows out = nrows (heap (only raw3) !!! 0)
    ∧ (∀ name, name ∉ derived_names →
         lookup_col name (columns out)
         = lookup_col name (columns (heap (only raw3) !!! 0)))
    ∧ (∀ n, n ∈ names out ↔ n ∈ names (heap (only raw3) !!! 0) ∨ n ∈ derived_names)
    ∧ ((∀ n, n ∈ derived_names → n ∉ names (heap (only raw3) !!! 0)) →
       columns out
       = columns (heap (only raw3) !!! 0)
         ++ derived_columns offline [num 100; None; num 102] (prices_from 10 3))
    ∧ (well_formed (heap (only raw3) !!! 0) → well_formed out).
Proof.
  apply (augment_keeps_frame offline (only raw3) 0 [num 100; None; num 102]
           (prices_from 10 3));
    reflexivity.
Defined.

Lemma augment_idempotent_witness :
  ∃ r1 st1 r2 st2,
    calculate_basic_metrics offline (Some 0) (only raw3) = (Ok (Some r1), st1)
    ∧ calculate_basic_metrics offline (Some r1) st1 = (Ok (Some r2), st2)
    ∧ r2 ≠ r1
    ∧ heap st2 !!! r2 = heap st1 !!! r1.
Proof.
  apply (augment_idempotent offline (only raw3) 0 [num 100; None; num 102]
           (prices_from 10 3));
    reflexivity.
Defined.


Lemma normalize_twice_raises_witness :
  ∃ r1 st1,
    process_time_series offline (Some 0) (only raw3) = (Ok (Some r1), st1)
    ∧ (process_time_series offline (Some r1) st1).1 = Raise (KeyError "Date").
Proof.
  apply (normalize_twice_raises offline (only raw3) 0
           (Datetime (days_from 19723 3)) (days_from 19723 3));
    [reflexivity|reflexivity|reflexivity|split; by_evaluation].
Defined.

Lemma normalize_keeps_well_formed_witness :
  ∃ out, returned (process_time_series offline (Some 0) (only raw3)) = Some out
         ∧ well_formed out
         ∧ is_empty out = false.
Proof.
  apply (normalize_keeps_well_formed offline (only raw3) 0
           (Datetime (days_from 19723 3)) (Datetime (days_from 19723 3)));
    [reflexivity|split; by_evaluation|reflexivity|reflexivity].
Defined.

Lemma fetch_then_normalize_witness :
  ∃ r st1 out,
    get_stock_data daily "AAPL" "1y" "1d" (mkState [] []) = (Ok (Some r), st1)
    ∧ returned (process_time_series daily (Some r) st1) = Some out
    ∧ index out = index (provider_frame "Date")
    ∧ index_name out = index_name (provider_frame "Date")
    ∧ nrows out = nrows (provider_frame "Date")
    ∧ ∀ name, name ≠ "DayOfWeek" → name ≠ "Month" →
        lookup_col name (columns out)
        = (ffill_column <$> lookup_col name (columns (provider_frame "Date"))).
Proof.
  apply (fetch_then_normalize daily "AAPL" "1y" "1d" (mkState [] [])
           (provider_frame "Date") (days_from 19723 3));
    [reflexivity|reflexivity|reflexivity|by_evaluation|by_evaluation].
Defined.

Lemma fetch_then_normalize_needs_date_witness :
  ∃ r st1,
    get_stock_data intraday "AAPL" "5d" "1h" (mkState [] []) = (Ok (Some r), st1)
    ∧ (process_time_series intraday (Some r) st1).1 = Raise (KeyError "Date").
Proof.
  apply (fetch_then_normalize_needs_date intraday "AAPL" "5d" "1h" (mkState [] [])
           (provider_frame "Datetime")
           (mkDataFrame None (range_index 3)
              (("Datetime", Datetime (days_from 19723 3))
               :: columns (provider_frame "Datetime"))));
    [reflexivity|reflexivity|discriminate|by_evaluation|by_evaluation].
Defined.
